(** * fuzzy-photo: the Mamdani quality engine and its HTTP endpoint

    Shallow embedding of [src/fuzzy_system.py] and of the request handler of
    [src/app.py].

    Numbers.  Python floats are modelled by the rationals [Q] with exact
    arithmetic: every finite double is a rational, and the model computes
    what the program would compute if no operation rounded.  Equality of
    numbers is [==] ([Qeq]).  Where the exact answers of two runs are equal
    or ordered and the rounding of the doubles could decide otherwise, the
    statements leave the margin [rounding_margin], a billionth.

    Library calls.  [fuzzy_system.py] builds its engine from numpy and
    scikit-fuzzy calls.  The functions it reaches are embedded in the modules
    [Np] (numpy: [arange], [interp], [fmin], [fmax], [union1d]) and [Fuzz]
    (skfuzzy: [trimf], [trapmf], [interp_membership], [interp_universe_fast],
    [centroid], [defuzz]) and [Ctrl] (skfuzzy.control: antecedents,
    consequents, rules, the simulation object and its [compute]).

    Measurements.  [calculate_metrics] of [src/app.py] takes logarithms; it
    is embedded in the module [Metrics] over the reals, with what OpenCV and
    numpy measure on the image as parameters. *)

From Stdlib Require Import QArith Qminmax Qround Qabs ZArith Lia Lra Lqa Psatz.
From Stdlib Require Import List Bool String.
From Stdlib Require Reals.
Import ListNotations.
Open Scope Q_scope.

(** ** Comparisons on floats *)

Definition Qlt_bool (x y : Q) : bool := negb (Qle_bool y x).

(** ** numpy *)

Module Np.

(** [np.arange(start, stop, step)]: [ceil((stop - start) / step)] samples
    [start + i * step]. *)
Definition arange (start stop step : Q) : list Q :=
  map (fun i => start + inject_Z (Z.of_nat i) * step)
      (seq 0 (Z.to_nat (Qceiling ((stop - start) / step)))).

(** [np.fmax], [np.fmin] on scalars. *)
Definition fmax (x y : Q) : Q := if Qle_bool x y then y else x.
Definition fmin (x y : Q) : Q := if Qle_bool x y then x else y.

(** [ar.max()], [ar.min()] of a non-empty array. *)
Definition amax (ar : list Q) : Q :=
  match ar with [] => 0 | h :: t => fold_left fmax t h end.
Definition amin (ar : list Q) : Q :=
  match ar with [] => 0 | h :: t => fold_left fmin t h end.

(** [np.interp(x, xp, fp, left, right)] for a scalar [x] and increasing [xp]:
    [left] below [xp[0]], [right] above [xp[-1]], otherwise the segment [j]
    with [xp[j] <= x < xp[j+1]] is located and the value is [fp[j]] when
    [x == xp[j]] and [slope * (x - xp[j]) + fp[j]] otherwise; [fp[-1]] on the
    last sample. *)
Fixpoint interp_scan (x x0 y0 : Q) (rest : list (Q * Q)) : Q :=
  match rest with
  | [] => y0
  | (x1, y1) :: rest' =>
      if Qlt_bool x x1 then
        if Qeq_bool x0 x then y0
        else (y1 - y0) / (x1 - x0) * (x - x0) + y0
      else interp_scan x x1 y1 rest'
  end.

Definition interp (x : Q) (xp fp : list Q) (left right : Q) : Q :=
  match combine xp fp with
  | [] => 0
  | (x0, y0) :: rest =>
      if Qlt_bool (last xp 0) x then right
      else if Qlt_bool x x0 then left
      else interp_scan x x0 y0 rest
  end.

(** [np.union1d(ar1, ar2)]: the sorted array of the distinct values of both.
    Sorting is by insertion; a value already present is not repeated. *)
Fixpoint insert (v : Q) (l : list Q) : list Q :=
  match l with
  | [] => [v]
  | h :: t =>
      match v ?= h with
      | Lt => v :: l
      | Eq => l
      | Gt => h :: insert v t
      end
  end.

Definition unique (ar : list Q) : list Q :=
  fold_left (fun acc v => insert v acc) ar [].

Definition union1d (ar1 ar2 : list Q) : list Q := unique (ar1 ++ ar2).

(** [ar.sum()]. *)
Definition sum (ar : list Q) : Q := fold_left Qplus ar 0.

End Np.

(** ** skfuzzy: membership generators and defuzzification *)

Module Fuzz.

(** [fuzz.trimf(x, [a, b, c])] at one sample [x]:
<<
    y = np.zeros(len(x))
    if a != b:  y[a < x < b] = (x - a) / float(b - a)
    if b != c:  y[b < x < c] = (c - x) / float(c - b)
    y[x == b] = 1
>> *)
Definition trimf_pt (a b c x : Q) : Q :=
  let y := 0 in
  let y := if negb (Qeq_bool a b) && (Qlt_bool a x && Qlt_bool x b)
           then (x - a) / (b - a) else y in
  let y := if negb (Qeq_bool b c) && (Qlt_bool b x && Qlt_bool x c)
           then (c - x) / (c - b) else y in
  if Qeq_bool x b then 1 else y.

(** The generator asserts [a <= b <= c]; a failed assertion is [None]. *)
Definition trimf (x : list Q) (abc : Q * Q * Q) : option (list Q) :=
  let '(a, b, c) := abc in
  if Qle_bool a b && Qle_bool b c then Some (map (trimf_pt a b c) x) else None.

(** The same computation with the divisions made explicit: a division by
    zero is [None].  The array code divides by [b - a] whenever [a != b] and
    by [c - b] whenever [b != c], whatever the sample. *)
Definition checked_div (x y : Q) : option Q :=
  if Qeq_bool y 0 then None else Some (x / y).

Definition trimf_pt_checked (a b c x : Q) : option Q :=
  let y := Some 0 in
  let y := if negb (Qeq_bool a b) then
             match checked_div (x - a) (b - a) with
             | None => None
             | Some q => if Qlt_bool a x && Qlt_bool x b then Some q else y
             end
           else y in
  let y := if negb (Qeq_bool b c) then
             match checked_div (c - x) (c - b), y with
             | Some q, Some y' =>
                 if Qlt_bool b x && Qlt_bool x c then Some q else Some y'
             | _, _ => None
             end
           else y in
  match y with
  | None => None
  | Some y' => if Qeq_bool x b then Some 1 else Some y'
  end.

(** [fuzz.trapmf(x, [a, b, c, d])] at one sample:
<<
    y = np.ones(len(x))
    y[x <= b] = trimf(x[x <= b], [a, b, b])
    y[x >= c] = trimf(x[x >= c], [c, c, d])
    y[x < a] = 0
    y[x > d] = 0
>> *)
Definition trapmf_pt (a b c d x : Q) : Q :=
  let y := 1 in
  let y := if Qle_bool x b then trimf_pt a b b x else y in
  let y := if Qle_bool c x then trimf_pt c c d x else y in
  let y := if Qlt_bool x a then 0 else y in
  if Qlt_bool d x then 0 else y.

Definition trapmf (x : list Q) (abcd : Q * Q * Q * Q) : option (list Q) :=
  let '(a, b, c, d) := abcd in
  if Qle_bool a b && Qle_bool b c && Qle_bool c d
  then Some (map (trapmf_pt a b c d) x) else None.

(** [fuzz.interp_membership(x, xmf, xx)]: [np.interp] with zero outside. *)
Definition interp_membership (x xmf : list Q) (xx : Q) : Q :=
  Np.interp xx x xmf 0 0.

(** [interp_universe_fast(x, xmf, y)]: the universe values at which the
    sampled membership function crosses the level [y]:
<<
    if y == 0.:  idx = np.where(np.diff(xmf > y))[0]
    else:        idx = np.where(np.diff(xmf >= y))[0]
    xx = x[idx] + (y - xmf[idx]) * (x[idx+1] - x[idx]) / (xmf[idx+1] - xmf[idx])
>> *)
Definition above (y m : Q) : bool :=
  if Qeq_bool y 0 then Qlt_bool y m else Qle_bool y m.

Fixpoint crossings (x0 m0 : Q) (rest : list (Q * Q)) (y : Q) : list Q :=
  match rest with
  | [] => []
  | (x1, m1) :: rest' =>
      if xorb (above y m0) (above y m1)
      then (x0 + (y - m0) * (x1 - x0) / (m1 - m0)) :: crossings x1 m1 rest' y
      else crossings x1 m1 rest' y
  end.

Definition interp_universe_fast (x xmf : list Q) (y : Q) : list Q :=
  match combine x xmf with
  | [] => []
  | (x0, m0) :: rest => crossings x0 m0 rest y
  end.

(** [np.finfo(float).eps], two to the minus 52. *)
Definition eps : Q := 1 # 4503599627370496.

(** One turn of the loop of [centroid]: the moment and the area of the figure
    between two neighbouring samples, or nothing when it is empty.
<<
    if not (y1 == y2 == 0.0 or x1 == x2):
        if y1 == y2:                    # rectangle
            moment = 0.5 * (x1 + x2);   area = (x2 - x1) * y1
        elif y1 == 0.0 and y2 != 0.0:   # triangle, height y2
            moment = 2.0 / 3.0 * (x2 - x1) + x1;  area = 0.5 * (x2 - x1) * y2
        elif y2 == 0.0 and y1 != 0.0:   # triangle, height y1
            moment = 1.0 / 3.0 * (x2 - x1) + x1;  area = 0.5 * (x2 - x1) * y1
        else:
            moment = (2.0 / 3.0 * (x2 - x1) * (y2 + 0.5 * y1)) / (y1 + y2) + x1
            area = 0.5 * (x2 - x1) * (y1 + y2)
>> *)
Definition figure (x1 y1 x2 y2 : Q) : option (Q * Q) :=
  if (Qeq_bool y1 y2 && Qeq_bool y2 0) || Qeq_bool x1 x2 then None
  else if Qeq_bool y1 y2 then
    Some ((1#2) * (x1 + x2), (x2 - x1) * y1)
  else if Qeq_bool y1 0 && negb (Qeq_bool y2 0) then
    Some ((2#3) * (x2 - x1) + x1, (1#2) * (x2 - x1) * y2)
  else if Qeq_bool y2 0 && negb (Qeq_bool y1 0) then
    Some ((1#3) * (x2 - x1) + x1, (1#2) * (x2 - x1) * y1)
  else
    Some (((2#3) * (x2 - x1) * (y2 + (1#2) * y1)) / (y1 + y2) + x1,
          (1#2) * (x2 - x1) * (y1 + y2)).

(** The loop [for i in range(1, len(x))], with its two accumulators. *)
Fixpoint centroid_loop (x1 y1 : Q) (rest : list (Q * Q))
  (sum_moment_area sum_area : Q) : Q * Q :=
  match rest with
  | [] => (sum_moment_area, sum_area)
  | (x2, y2) :: rest' =>
      match figure x1 y1 x2 y2 with
      | None => centroid_loop x2 y2 rest' sum_moment_area sum_area
      | Some (moment, area) =>
          centroid_loop x2 y2 rest'
            (sum_moment_area + moment * area) (sum_area + area)
      end
  end.

(** [centroid(x, mfx)]. *)
Definition centroid (x mfx : list Q) : Q :=
  match combine x mfx with
  | [] => 0 / Np.fmax 0 eps
  | [(x0, y0)] => x0 * y0 / Np.fmax y0 eps
  | (x0, y0) :: rest =>
      let '(sum_moment_area, sum_area) := centroid_loop x0 y0 rest 0 0 in
      sum_moment_area / Np.fmax sum_area eps
  end.

(** [defuzz(x, mfx, 'centroid')]: an all-zero membership raises
    (here: [None]). *)
Definition defuzz (x mfx : list Q) : option Q :=
  if Qeq_bool (Np.sum mfx) 0 then None else Some (centroid x mfx).

End Fuzz.

(** ** skfuzzy.control: variables, rules, the simulation *)

Module Ctrl.

(** Python dictionaries with string keys, in insertion order. *)
Section Dict.
Context {A : Type}.

Fixpoint dict_get (d : list (string * A)) (k : string) : option A :=
  match d with
  | [] => None
  | (k', v) :: d' => if String.eqb k k' then Some v else dict_get d' k
  end.

Fixpoint dict_set (d : list (string * A)) (k : string) (v : A)
  : list (string * A) :=
  match d with
  | [] => [(k, v)]
  | (k', v') :: d' =>
      if String.eqb k k' then (k, v) :: d' else (k', v') :: dict_set d' k v
  end.

End Dict.

(** The exceptions the engine can raise. *)
Inductive Exc : Type :=
| ValueError (msg : string)
| KeyError (key : string)
| TypeError (msg : string)
| AssertionError.

(** [Antecedent(universe, label)] and [Consequent(universe, label)]: a
    universe and a dictionary from term labels to sampled membership
    functions. *)
Record FuzzyVariable : Type := mkVar {
  label : string;
  universe : list Q;
  terms : list (string * list Q)
}.

Definition Antecedent (u : list Q) (l : string) : FuzzyVariable := mkVar l u [].
Definition Consequent (u : list Q) (l : string) : FuzzyVariable := mkVar l u [].

(** [var[l] = mf]. *)
Definition set_term (var : FuzzyVariable) (l : string) (mf : list Q)
  : FuzzyVariable :=
  mkVar (label var) (universe var) (dict_set (terms var) l mf).

(** [var[l]]: a term knows its variable and its label. *)
Record Term : Type := mkTerm { parent : FuzzyVariable; tlabel : string }.

Definition get_term (var : FuzzyVariable) (l : string) : Term := mkTerm var l.

(** Antecedent expressions: a term, [a & b], [a | b]. *)
Inductive TermExpr : Type :=
| Leaf (t : Term)
| And (a b : TermExpr)
| Or (a b : TermExpr).

(** [Rule(antecedent, consequent)]; the consequent term has weight 1. *)
Record Rule : Type := mkRule {
  antecedent : TermExpr;
  consequent : Term;
  weight : Q
}.

Definition mk_rule (a : TermExpr) (c : Term) : Rule := mkRule a c 1.

(** [ControlSystem(rules)]: the antecedent and consequent variables are those
    of the terms the rules mention, each once. *)
Fixpoint leaves (e : TermExpr) : list Term :=
  match e with
  | Leaf t => [t]
  | And a b => leaves a ++ leaves b
  | Or a b => leaves a ++ leaves b
  end.

Fixpoint add_var (v : FuzzyVariable) (vs : list FuzzyVariable)
  : list FuzzyVariable :=
  match vs with
  | [] => [v]
  | w :: ws => if String.eqb (label v) (label w) then vs else w :: add_var v ws
  end.

Record ControlSystem : Type := mkCtrl {
  rules : list Rule;
  antecedents : list FuzzyVariable;
  consequents : list FuzzyVariable
}.

Definition mk_ControlSystem (rs : list Rule) : ControlSystem :=
  mkCtrl rs
    (fold_left (fun vs t => add_var (parent t) vs)
               (flat_map (fun r => leaves (antecedent r)) rs) [])
    (fold_left (fun vs r => add_var (parent (consequent r)) vs) rs []).

(** [ControlSystemSimulation(ctrl)], with the defaults [clip_to_bounds=True],
    [cache=True], [flush_after_run=1000].  The object keeps the inputs, the
    outputs, the results of the runs already made (keyed by the inputs) and
    the number of runs since the last flush. *)
Definition Inputs : Type := list (string * Q).
Definition Outputs : Type := list (string * Q).

Record ControlSystemSimulation : Type := mkSim {
  ctrl : ControlSystem;
  input : Inputs;
  output : Outputs;
  calculated : list (Inputs * Outputs);
  run : nat
}.

Definition flush_after_run : nat := 1000.

(** The simulation monad: a call may raise, and it may change the object
    in either case. *)
Definition M (A : Type) : Type :=
  ControlSystemSimulation -> (Exc + A) * ControlSystemSimulation.

Definition ret {A} (a : A) : M A := fun s => (inr a, s).
Definition raise {A} (e : Exc) : M A := fun s => (inl e, s).
Definition bind {A B} (c : M A) (k : A -> M B) : M B :=
  fun s =>
    match c s with
    | (inl e, s') => (inl e, s')
    | (inr a, s') => k a s'
    end.
Definition get : M ControlSystemSimulation := fun s => (inr s, s).
Definition put (s : ControlSystemSimulation) : M unit := fun _ => (inr tt, s).
Definition lift {A} (r : Exc + A) : M A := fun s => (r, s).

Declare Scope sim_scope.
Delimit Scope sim_scope with sim.
Notation "x <- c ;; k" := (bind c (fun x => k))
  (at level 61, c at next level, right associativity) : sim_scope.
Notation "c ;;; k" := (bind c (fun _ => k))
  (at level 61, right associativity) : sim_scope.

(** Two inputs are the same run when they print the same: same labels, same
    floats. *)
Definition float_same (x y : Q) : bool :=
  Z.eqb (Qnum x) (Qnum y) && Pos.eqb (Qden x) (Qden y).

Fixpoint inputs_same (a b : Inputs) : bool :=
  match a, b with
  | [], [] => true
  | (k, x) :: a', (k', y) :: b' =>
      String.eqb k k' && float_same x y && inputs_same a' b'
  | _, _ => false
  end.

Fixpoint calculated_get (c : list (Inputs * Outputs)) (k : Inputs)
  : option Outputs :=
  match c with
  | [] => None
  | (k', o) :: c' => if inputs_same k k' then Some o else calculated_get c' k
  end.

(** [sim.input[key] = value]: the value is clipped to the universe of the
    antecedent called [key]; an unknown [key] raises. *)
Fixpoint find_var (vs : list FuzzyVariable) (key : string)
  : option FuzzyVariable :=
  match vs with
  | [] => None
  | v :: vs' => if String.eqb key (label v) then Some v else find_var vs' key
  end.

Definition clip (var : FuzzyVariable) (value : Q) : Q :=
  Np.fmin (Np.amax (universe var)) (Np.fmax (Np.amin (universe var)) value).

Definition input_set (key : string) (value : Q) : M unit :=
  fun s =>
    match find_var (antecedents (ctrl s)) key with
    | None => (inl (ValueError ("Unexpected input: " ++ key)), s)
    | Some var =>
        (inr tt,
         mkSim (ctrl s) (dict_set (input s) key (clip var value))
               (output s) (calculated s) (run s))
    end.

(** Membership values of the terms, per variable label and term label. *)
Definition Memberships : Type := list (string * string * Q).

Fixpoint mv_get (t : Memberships) (v l : string) : option Q :=
  match t with
  | [] => None
  | (v', l', x) :: t' =>
      if String.eqb v v' && String.eqb l l' then Some x else mv_get t' v l
  end.

Fixpoint mv_set (t : Memberships) (v l : string) (x : Q) : Memberships :=
  match t with
  | [] => [(v, l, x)]
  | (v', l', x') :: t' =>
      if String.eqb v v' && String.eqb l l' then (v, l, x) :: t'
      else (v', l', x') :: mv_set t' v l x
  end.

(** [CrispValueCalculator(antecedent, sim).fuzz(value)]: the degree of every
    term of the variable at the crisp value. *)
Definition fuzz (var : FuzzyVariable) (value : Q) : Memberships :=
  map (fun '(l, mf) =>
         (label var, l, Fuzz.interp_membership (universe var) mf value))
      (terms var).

Fixpoint fuzz_all (vs : list FuzzyVariable) (inp : Inputs)
  : Exc + Memberships :=
  match vs with
  | [] => inr []
  | v :: vs' =>
      match dict_get inp (label v) with
      | None => inl (ValueError "All antecedents must have input values!")
      | Some value =>
          match terms v with
          | [] => inl (ValueError "Set Term membership function(s) first")
          | _ =>
              match fuzz_all vs' inp with
              | inl e => inl e
              | inr t => inr (fuzz v value ++ t)
              end
          end
      end
  end.

(** The degree of an antecedent expression: [np.fmin] for [&], [np.fmax]
    for [|]. *)
Fixpoint membership_value (t : Memberships) (e : TermExpr) : option Q :=
  match e with
  | Leaf tm => mv_get t (label (parent tm)) (tlabel tm)
  | And a b =>
      match membership_value t a, membership_value t b with
      | Some x, Some y => Some (Np.fmin x y)
      | _, _ => None
      end
  | Or a b =>
      match membership_value t a, membership_value t b with
      | Some x, Some y => Some (Np.fmax x y)
      | _, _ => None
      end
  end.

(** [compute_rule]: aggregation of the antecedent, activation by the weight,
    accumulation into the cut of the consequent term with [np.fmax]. *)
Definition activation (t : Memberships) (r : Rule) : option Q :=
  match membership_value t (antecedent r) with
  | None => None
  | Some aggregate_firing => Some (aggregate_firing * weight r)
  end.

Definition compute_rule (t : Memberships) (cuts : Memberships) (r : Rule)
  : Exc + Memberships :=
  match activation t r with
  | None => inl (TypeError "membership value missing")
  | Some value =>
      let v := label (parent (consequent r)) in
      let l := tlabel (consequent r) in
      match mv_get cuts v l with
      | None => inr (mv_set cuts v l value)
      | Some old => inr (mv_set cuts v l (Np.fmax value old))
      end
  end.

Fixpoint compute_rules (t : Memberships) (cuts : Memberships)
  (rs : list Rule) : Exc + Memberships :=
  match rs with
  | [] => inr cuts
  | r :: rs' =>
      match compute_rule t cuts r with
      | inl e => inl e
      | inr cuts' => compute_rules t cuts' rs'
      end
  end.

(** [find_memberships]: the universe is upsampled with the points where each
    term meets its cut; the output set is the maximum over the terms of the
    term clipped at its cut. *)
Definition cut_terms (var : FuzzyVariable) (cuts : Memberships)
  : list (list Q * Q) :=
  flat_map (fun '(l, mf) =>
              match mv_get cuts (label var) l with
              | None => []
              | Some cut => [(mf, cut)]
              end)
           (terms var).

Definition new_universe (var : FuzzyVariable) (cts : list (list Q * Q))
  : list Q :=
  Np.union1d (universe var)
    (flat_map (fun '(mf, cut) =>
                 Fuzz.interp_universe_fast (universe var) mf cut) cts).

Definition output_mf_at (var : FuzzyVariable) (cts : list (list Q * Q))
  (x : Q) : Q :=
  fold_left (fun acc '(mf, cut) =>
               Np.fmax acc
                 (Np.fmin cut (Fuzz.interp_membership (universe var) mf x)))
            cts 0.

Definition find_memberships (var : FuzzyVariable) (cuts : Memberships)
  : list Q * list Q * nat :=
  let cts := cut_terms var cuts in
  let ups_universe := new_universe var cts in
  (ups_universe, map (output_mf_at var cts) ups_universe, List.length cts).

(** [CrispValueCalculator(consequent, sim).defuzz()]. *)
Definition defuzz (var : FuzzyVariable) (cuts : Memberships) : Exc + Q :=
  let '(ups_universe, output_mf, n) := find_memberships var cuts in
  if Nat.eqb n 0 then inl (ValueError "No terms have memberships.")
  else
    match Fuzz.defuzz ups_universe output_mf with
    | None => inl (ValueError "Crisp output cannot be calculated, likely because the system is too sparse.")
    | Some v => inr v
    end.

Fixpoint defuzz_all (vs : list FuzzyVariable) (cuts : Memberships)
  (out : Outputs) : Exc + Outputs :=
  match vs with
  | [] => inr out
  | v :: vs' =>
      match defuzz v cuts with
      | inl e => inl e
      | inr x => defuzz_all vs' cuts (dict_set out (label v) x)
      end
  end.

(** The computation of a run that is not in the cache. *)
Definition infer (c : ControlSystem) (inp : Inputs) (out : Outputs)
  : Exc + Outputs :=
  match fuzz_all (antecedents c) inp with
  | inl e => inl e
  | inr t =>
      match compute_rules t [] (rules c) with
      | inl e => inl e
      | inr cuts => defuzz_all (consequents c) cuts out
      end
  end.

(** [_reset_simulation]: forget the runs made so far. *)
Definition reset_simulation (s : ControlSystemSimulation)
  : ControlSystemSimulation :=
  mkSim (ctrl s) (input s) (output s) [] 0.

Fixpoint dict_update (out : Outputs) (new : Outputs) : Outputs :=
  match new with
  | [] => out
  | (k, v) :: new' => dict_update (dict_set out k v) new'
  end.

(** [sim.compute()]: a run already made is answered from the cache; a new
    one is computed, recorded and counted, and the cache is flushed every
    [flush_after_run] runs. *)
Definition compute : M unit :=
  fun s =>
    match calculated_get (calculated s) (input s) with
    | Some o =>
        (inr tt,
         mkSim (ctrl s) (input s) (dict_update (output s) o)
               (calculated s) (run s))
    | None =>
        match infer (ctrl s) (input s) [] with
        | inl e => (inl e, s)
        | inr o =>
            let s' := mkSim (ctrl s) (input s) (dict_update (output s) o)
                            ((input s, o) :: calculated s) (S (run s)) in
            (inr tt,
             if Nat.eqb (Nat.modulo (run s') flush_after_run) 0
             then reset_simulation s' else s')
        end
    end.

(** [sim.output[key]]. *)
Definition output_get (key : string) : M Q :=
  fun s =>
    match dict_get (output s) key with
    | None => (inl (KeyError key), s)
    | Some v => (inr v, s)
    end.

End Ctrl.

(** ** src/fuzzy_system.py *)

Module FuzzySystem.
Import Ctrl.
Local Open Scope string_scope.

Notation "x <-? c ;; k" :=
  (match c with Some x => k | None => None end)
  (at level 61, c at next level, right associativity).

(** [np.arange(0, 10.1, 0.1)] and [np.arange(0, 100.1, 1)]. *)
Definition universo_entrada : list Q := Np.arange 0 (101 # 10) (1 # 10).
Definition universo_salida : list Q := Np.arange 0 (1001 # 10) 1.

(** The three antecedents, the consequent and their terms. *)
Definition build_nitidez : option FuzzyVariable :=
  let nitidez := Antecedent universo_entrada "nitidez" in
  baja <-? Fuzz.trimf (universe nitidez) (0, 0, 5) ;;
  let nitidez := set_term nitidez "baja" baja in
  media <-? Fuzz.trimf (universe nitidez) (0, 5, 10) ;;
  let nitidez := set_term nitidez "media" media in
  alta <-? Fuzz.trimf (universe nitidez) (5, 10, 10) ;;
  Some (set_term nitidez "alta" alta).

Definition build_contraste : option FuzzyVariable :=
  let contraste := Antecedent universo_entrada "contraste" in
  bajo <-? Fuzz.trimf (universe contraste) (0, 0, 5) ;;
  let contraste := set_term contraste "bajo" bajo in
  normal <-? Fuzz.trimf (universe contraste) (0, 5, 10) ;;
  let contraste := set_term contraste "normal" normal in
  alto <-? Fuzz.trimf (universe contraste) (5, 10, 10) ;;
  Some (set_term contraste "alto" alto).

Definition build_exposicion : option FuzzyVariable :=
  let exposicion := Antecedent universo_entrada "exposicion" in
  oscura <-? Fuzz.trimf (universe exposicion) (0, 0, 5) ;;
  let exposicion := set_term exposicion "oscura" oscura in
  correcta <-? Fuzz.trimf (universe exposicion) (0, 5, 10) ;;
  let exposicion := set_term exposicion "correcta" correcta in
  brillante <-? Fuzz.trimf (universe exposicion) (5, 10, 10) ;;
  Some (set_term exposicion "brillante" brillante).

Definition build_calidad_estetica : option FuzzyVariable :=
  let calidad_estetica := Consequent universo_salida "calidad_estetica" in
  pobre <-? Fuzz.trapmf (universe calidad_estetica) (0, 0, 30, 50) ;;
  let calidad_estetica := set_term calidad_estetica "pobre" pobre in
  aceptable <-? Fuzz.trimf (universe calidad_estetica) (30, 60, 90) ;;
  let calidad_estetica := set_term calidad_estetica "aceptable" aceptable in
  excelente <-? Fuzz.trapmf (universe calidad_estetica) (70, 90, 100, 100) ;;
  Some (set_term calidad_estetica "excelente" excelente).

(** The eight rules, in the order of the source. *)
Definition build_rules (nitidez contraste exposicion calidad_estetica
  : FuzzyVariable) : list Rule :=
  let rule1 := mk_rule (Or (Leaf (get_term nitidez "baja")) (Leaf (get_term contraste "bajo")))
                       (get_term calidad_estetica "pobre") in
  let rule2 := mk_rule (And (Leaf (get_term nitidez "alta")) (Leaf (get_term contraste "alto")))
                       (get_term calidad_estetica "excelente") in
  let rule3 := mk_rule (Or (Leaf (get_term exposicion "oscura")) (Leaf (get_term exposicion "brillante")))
                       (get_term calidad_estetica "pobre") in
  let rule4 := mk_rule (And (And (Leaf (get_term nitidez "media")) (Leaf (get_term contraste "normal")))
                            (Leaf (get_term exposicion "correcta")))
                       (get_term calidad_estetica "aceptable") in
  let rule5 := mk_rule (And (And (Leaf (get_term nitidez "alta")) (Leaf (get_term contraste "normal")))
                            (Leaf (get_term exposicion "correcta")))
                       (get_term calidad_estetica "excelente") in
  let rule6 := mk_rule (Or (Leaf (get_term nitidez "media")) (Leaf (get_term contraste "normal")))
                       (get_term calidad_estetica "aceptable") in
  let rule7 := mk_rule (And (Leaf (get_term nitidez "baja")) (Leaf (get_term exposicion "oscura")))
                       (get_term calidad_estetica "pobre") in
  let rule8 := mk_rule (And (Leaf (get_term contraste "alto")) (Leaf (get_term exposicion "brillante")))
                       (get_term calidad_estetica "pobre") in
  [rule1; rule2; rule3; rule4; rule5; rule6; rule7; rule8].

(** [initialize_fuzzy_system()]: [None] when a membership generator rejects
    its control points. *)
Definition initialize_fuzzy_system : option ControlSystemSimulation :=
  nitidez <-? build_nitidez ;;
  contraste <-? build_contraste ;;
  exposicion <-? build_exposicion ;;
  calidad_estetica <-? build_calidad_estetica ;;
  let calidad_ctrl :=
    mk_ControlSystem
      (build_rules nitidez contraste exposicion calidad_estetica) in
  let calidad_simulador := mkSim calidad_ctrl [] [] [] 0 in
  Some calidad_simulador.

(** [evaluate_quality(nitidez_val, contraste_val, exposicion_val, simulador)];
    the simulator is the state of the monad. *)
Definition evaluate_quality (nitidez_val contraste_val exposicion_val : Q)
  : M Q :=
  (input_set "nitidez" nitidez_val ;;;
   input_set "contraste" contraste_val ;;;
   input_set "exposicion" exposicion_val ;;;
   compute ;;;
   calidad_final <- output_get "calidad_estetica" ;;
   ret calidad_final)%sim.

(** The objects [initialize_fuzzy_system] builds, by name. *)
Definition mf_lo : list Q := map (Fuzz.trimf_pt 0 0 5) universo_entrada.
Definition mf_mid : list Q := map (Fuzz.trimf_pt 0 5 10) universo_entrada.
Definition mf_hi : list Q := map (Fuzz.trimf_pt 5 10 10) universo_entrada.
Definition mf_pobre : list Q :=
  map (Fuzz.trapmf_pt 0 0 30 50) universo_salida.
Definition mf_aceptable : list Q :=
  map (Fuzz.trimf_pt 30 60 90) universo_salida.
Definition mf_excelente : list Q :=
  map (Fuzz.trapmf_pt 70 90 100 100) universo_salida.

Definition nitidez : FuzzyVariable :=
  mkVar "nitidez" universo_entrada
        [("baja", mf_lo); ("media", mf_mid); ("alta", mf_hi)].
Definition contraste : FuzzyVariable :=
  mkVar "contraste" universo_entrada
        [("bajo", mf_lo); ("normal", mf_mid); ("alto", mf_hi)].
Definition exposicion : FuzzyVariable :=
  mkVar "exposicion" universo_entrada
        [("oscura", mf_lo); ("correcta", mf_mid); ("brillante", mf_hi)].
Definition calidad_estetica : FuzzyVariable :=
  mkVar "calidad_estetica" universo_salida
        [("pobre", mf_pobre); ("aceptable", mf_aceptable);
         ("excelente", mf_excelente)].

Definition calidad_ctrl : ControlSystem :=
  mk_ControlSystem (build_rules nitidez contraste exposicion calidad_estetica).

Definition calidad_simulador : ControlSystemSimulation :=
  mkSim calidad_ctrl [] [] [] 0.

(** The degrees of the three terms of an antecedent at a crisp value, as
    [fuzz] computes them. *)
Definition lo (v : Q) : Q := Fuzz.interp_membership universo_entrada mf_lo v.
Definition mid (v : Q) : Q := Fuzz.interp_membership universo_entrada mf_mid v.
Definition hi (v : Q) : Q := Fuzz.interp_membership universo_entrada mf_hi v.

(** The cuts of the three output terms once the eight rules have run, for
    the crisp inputs [n], [c], [e] (after clipping). *)
Definition cut_pobre (n c e : Q) : Q :=
  Np.fmax (Np.fmin (hi c) (hi e) * 1)
    (Np.fmax (Np.fmin (lo n) (lo e) * 1)
       (Np.fmax (Np.fmax (lo e) (hi e) * 1) (Np.fmax (lo n) (lo c) * 1))).
Definition cut_excelente (n c e : Q) : Q :=
  Np.fmax (Np.fmin (Np.fmin (hi n) (mid c)) (mid e) * 1)
    (Np.fmin (hi n) (hi c) * 1).
Definition cut_aceptable (n c e : Q) : Q :=
  Np.fmax (Np.fmax (mid n) (mid c) * 1)
    (Np.fmin (Np.fmin (mid n) (mid c)) (mid e) * 1).

Definition cuts (p x a : Q) : Memberships :=
  [("calidad_estetica", "pobre", p); ("calidad_estetica", "excelente", x);
   ("calidad_estetica", "aceptable", a)].

(** The degrees of the three output terms at a point of the output
    universe, the upsampled universe and the aggregated output set, for the
    cuts [p] (pobre), [a] (aceptable), [x] (excelente). *)
Definition mu_pobre (v : Q) : Q :=
  Fuzz.interp_membership universo_salida mf_pobre v.
Definition mu_aceptable (v : Q) : Q :=
  Fuzz.interp_membership universo_salida mf_aceptable v.
Definition mu_excelente (v : Q) : Q :=
  Fuzz.interp_membership universo_salida mf_excelente v.

Definition grid (p a x : Q) : list Q :=
  Np.union1d universo_salida
    (Fuzz.interp_universe_fast universo_salida mf_pobre p ++
     Fuzz.interp_universe_fast universo_salida mf_aceptable a ++
     Fuzz.interp_universe_fast universo_salida mf_excelente x ++ []).

Definition agg (p a x : Q) (v : Q) : Q :=
  Np.fmax
    (Np.fmax (Np.fmax 0 (Np.fmin p (mu_pobre v)))
             (Np.fmin a (mu_aceptable v)))
    (Np.fmin x (mu_excelente v)).

(** What a run answers for the crisp inputs: the inputs are clipped, the
    rules cut the output terms, the output set is defuzzified. *)
Definition quality (n c e : Q) : Exc + Q :=
  let n' := clip nitidez n in
  let c' := clip contraste c in
  let e' := clip exposicion e in
  defuzz calidad_estetica
    (cuts (cut_pobre n' c' e') (cut_excelente n' c' e')
          (cut_aceptable n' c' e')).

(** The states of the simulator the program can reach: the one
    [initialize_fuzzy_system] returns, and those left by a call of
    [evaluate_quality]. *)
Inductive reachable : ControlSystemSimulation -> Prop :=
| reach_init s : initialize_fuzzy_system = Some s -> reachable s
| reach_eval s n c e :
    reachable s -> reachable (snd (evaluate_quality n c e s)).

End FuzzySystem.

(** ** src/app.py: the endpoint [/upload_and_evaluate] *)

Module App.
Local Open Scope string_scope.

(** The JSON bodies the endpoint builds: objects of numbers and strings. *)
Inductive Json : Type :=
| JNum (q : Q)
| JStr (s : string).

Definition JsonObject : Type := list (string * Json).

(** What a call of the view function comes to: a response with a status, an
    exception that leaves the function, or the end of the body with no
    [return]. *)
Inductive Outcome : Type :=
| Response (body : JsonObject) (status : nat)
| Raised (e : string)
| ReturnedNone.

(** The uploaded file: its name and what [file.save(path)] does
    ([Some e]: it raises [e]). *)
Record FileStorage : Type := mkFile {
  filename : string;
  save : string -> option string
}.

(** The surroundings of the handler: werkzeug's [secure_filename], the
    OpenCV measurements of [calculate_metrics] (which may raise), and the
    file system seen by [os.path.exists] and [os.remove] in the [finally]
    block. *)
Record Env : Type := mkEnv {
  secure_filename : string -> string;
  calculate_metrics : string -> string + (Q * Q * Q);
  path_exists : string -> bool;
  os_remove : string -> option string
}.

Definition UPLOAD_FOLDER : string := "uploads".

(** [os.path.join(folder, name)] for a relative [name]. *)
Definition path_join (folder name : string) : string := folder ++ "/" ++ name.

(** [round(x, 2)]: to the nearest hundredth, ties to even. *)
Definition round2 (x : Q) : Q :=
  let y := x * 100 in
  let f := Qfloor y in
  let r := y - inject_Z f in
  let n := if Qlt_bool r (1#2) then f
           else if Qlt_bool (1#2) r then (f + 1)%Z
           else if Z.even f then f else (f + 1)%Z in
  inject_Z n / 100.

Definition exc_text (e : Ctrl.Exc) : string :=
  match e with
  | Ctrl.ValueError m => m
  | Ctrl.KeyError k => k
  | Ctrl.TypeError m => m
  | Ctrl.AssertionError => ""
  end.

(** The [try] block: save, measure, evaluate, answer. *)
Definition try_block (env : Env) (sim : Ctrl.ControlSystemSimulation)
  (file : FileStorage) (filepath : string)
  : (string + JsonObject) * Ctrl.ControlSystemSimulation :=
  match save file filepath with
  | Some e => (inl e, sim)
  | None =>
      match calculate_metrics env filepath with
      | inl e => (inl e, sim)
      | inr (nitidez_val, contraste_val, exposicion_val) =>
          match FuzzySystem.evaluate_quality nitidez_val contraste_val
                  exposicion_val sim with
          | (inl e, sim') => (inl (exc_text e), sim')
          | (inr calidad_final, sim') =>
              (inr [("calidad", JNum calidad_final);
                    ("nitidez_calc", JNum (round2 nitidez_val));
                    ("contraste_calc", JNum (round2 contraste_val));
                    ("exposicion_calc", JNum (round2 exposicion_val));
                    ("status", JStr "success")], sim')
          end
      end
  end.

(** [upload_and_evaluate_fuzzy_api()].  [CALIDAD_SIMULADOR] is the engine
    built at start-up ([None] when that failed); [files] is
    [request.files]. *)
Definition upload_and_evaluate_fuzzy_api (env : Env)
  (CALIDAD_SIMULADOR : option Ctrl.ControlSystemSimulation)
  (files : list (string * FileStorage))
  : Outcome * option Ctrl.ControlSystemSimulation :=
  match CALIDAD_SIMULADOR with
  | None =>
      (Response [("error", JStr "Motor de Lógica Difusa no disponible.");
                 ("calidad", JNum 50)] 503, None)
  | Some sim =>
      match Ctrl.dict_get files "imageFile" with
      | None =>
          (Response [("error", JStr "No se encontró el archivo de imagen.");
                     ("calidad", JNum 50)] 400, Some sim)
      | Some file =>
          if String.eqb (filename file) "" then
            (Response [("error", JStr "Nombre de archivo vacío.");
                       ("calidad", JNum 50)] 400, Some sim)
          else if negb (String.eqb (filename file) "") then
            let filepath :=
              path_join UPLOAD_FOLDER (secure_filename env (filename file)) in
            let '(result, sim') := try_block env sim file filepath in
            let pending :=
              match result with
              | inr body => Response body 200
              | inl e =>
                  Response [("calidad", JNum 50);
                            ("error", JStr ("Error interno: " ++ e));
                            ("status", JStr "error")] 500
              end in
            (* finally *)
            if path_exists env filepath then
              match os_remove env filepath with
              | Some e => (Raised e, Some sim')
              | None => (pending, Some sim')
              end
            else (pending, Some sim')
          else (ReturnedNone, Some sim)
      end
  end.

(** The module-level start-up: the engine, or [None] when building it
    raised. *)
Definition CALIDAD_SIMULADOR : option Ctrl.ControlSystemSimulation :=
  FuzzySystem.initialize_fuzzy_system.

(** The ["calidad"] field of an outcome, when it is a JSON response that
    has one. *)
Definition calidad_of (o : Outcome) : option Json :=
  match o with
  | Response body _ => Ctrl.dict_get body "calidad"
  | _ => None
  end.

End App.

(** ** src/app.py: [calculate_metrics] *)

Module Metrics.
Import Reals Lra.
Local Open Scope R_scope.
Local Open Scope string_scope.

(** The exceptions that leave [calculate_metrics]: its own
    [FileNotFoundError], and the error OpenCV raises in [cvtColor] on an
    image that was not read. *)
Inductive MetricsError : Type :=
| FileNotFoundError (msg : string)
| CvError.

(** OpenCV and numpy as the function uses them, over images of some type:
    the two readings of the file ([None] when it cannot be decoded), the
    variance of the Laplacian of the grey image, the standard deviation of
    its intensities, and the mean of the V channel of the colour image. *)
Record Cv (Image : Type) : Type := mkCv {
  imread_gray : string -> option Image;
  imread_bgr : string -> option Image;
  laplacian_var : Image -> R;
  std : Image -> R;
  mean_v : Image -> R
}.
Arguments mkCv {Image}.
Arguments imread_gray {Image}.
Arguments imread_bgr {Image}.
Arguments laplacian_var {Image}.
Arguments std {Image}.
Arguments mean_v {Image}.

(** [np.log1p(x)]. *)
Definition log1p (x : R) : R := ln (1 + x).

(** [np.clip(x, a_min, a_max)]: [minimum(maximum(x, a_min), a_max)]. *)
Definition clip (x a_min a_max : R) : R := Rmin (Rmax x a_min) a_max.

(** [calculate_metrics(image_path)], with exact reals for the doubles. *)
Definition calculate_metrics {Image} (cv : Cv Image) (image_path : string)
  : MetricsError + (R * R * R) :=
  let img_gray := imread_gray cv image_path in
  let img_bgr := imread_bgr cv image_path in
  match img_gray with
  | None =>
      inl (FileNotFoundError
             ("No se pudo cargar la imagen en: " ++ image_path))
  | Some img_gray =>
      let laplacian_variance := laplacian_var cv img_gray in
      let nitidez_val := log1p laplacian_variance * (10 / log1p 300) in
      let nitidez_val := clip nitidez_val 0 10 in
      let contrast_std := std cv img_gray in
      let contraste_val := (contrast_std / 50) * 10 in
      let contraste_val := clip contraste_val 0 10 in
      match img_bgr with
      | None => inl CvError
      | Some img_bgr =>
          let mean_value := mean_v cv img_bgr in
          let exposicion_val := (mean_value / 255) * 10 in
          inr (nitidez_val, contraste_val, exposicion_val)
      end
  end.

(** What the measurements are known to satisfy: a variance and a standard
    deviation are not negative, and the V channel of an 8-bit image lies
    between 0 and 255. *)
Definition measures {Image} (cv : Cv Image) : Prop :=
  forall img,
    0 <= laplacian_var cv img /\ 0 <= std cv img /\
    0 <= mean_v cv img <= 255.

(** Examples: one image, and two images of different sharpness and
    contrast. *)
Definition sample_cv : Cv unit :=
  mkCv (fun _ => Some tt) (fun _ => Some tt)
       (fun _ => 450) (fun _ => 40) (fun _ => 102).

Definition sample_pair : Cv bool :=
  mkCv (fun path => Some (String.eqb path "uploads/nitida.jpg"))
       (fun path => Some (String.eqb path "uploads/nitida.jpg"))
       (fun img => if img then 450 else 120)
       (fun img => if img then 60 else 20)
       (fun _ => 102).

End Metrics.

Import Ctrl FuzzySystem.

(** * Definitions for the properties *)

(** The margin left to the rounding of doubles in the statements that
    compare two answers, or an answer with a number it meets exactly. *)
Definition rounding_margin : Q := 1 # 1000000000.

(** The three inputs as [evaluate_quality] leaves them. *)
Definition inputs_of (n c e : Q) : Inputs :=
  [("nitidez"%string, clip nitidez n); ("contraste"%string, clip contraste c);
   ("exposicion"%string, clip exposicion e)].

(** What holds of every reachable simulator: it runs the rule base of
    [initialize_fuzzy_system], its inputs are unset or the three of the
    last call, and every cached run records what [infer] answers. *)
Record sim_inv (s : ControlSystemSimulation) : Prop := {
  inv_ctrl : ctrl s = calidad_ctrl;
  inv_input :
    input s = [] \/
    exists n c e, input s =
      [("nitidez"%string, n); ("contraste"%string, c);
       ("exposicion"%string, e)];
  inv_cache :
    forall k o, In (k, o) (calculated s) -> infer calidad_ctrl k [] = inr o
}.

(** The simulator after a run that was not cached. *)
Definition record_run (s : ControlSystemSimulation) (o : Outputs)
  : ControlSystemSimulation :=
  let s' := mkSim (ctrl s) (input s) (dict_update (output s) o)
                  ((input s, o) :: calculated s) (S (run s)) in
  if Nat.eqb (Nat.modulo (run s') flush_after_run) 0
  then reset_simulation s' else s'.

(** [f] is linear between two neighbouring samples of [l], and the samples
    increase. *)
Fixpoint seg_ok (f : Q -> Q) (l : list Q) : Prop :=
  match l with
  | u :: ((w :: _) as l') =>
      u < w /\
      (forall v, u <= v <= w -> f v == (f w - f u) / (w - u) * (v - u) + f u)
      /\ seg_ok f l'
  | _ => True
  end.

(** [f] follows the line [m * v + c] on each of the [pieces]
    [(from, to, m, c)]. *)
Definition on_pieces (f : Q -> Q) (pieces : list (Q * Q * Q * Q)) : Prop :=
  Forall (fun '(from, to, m, c) =>
            forall v, from <= v <= to -> f v == m * v + c) pieces.

Definition covered (pieces : list (Q * Q * Q * Q)) (u w : Q) : bool :=
  existsb (fun '(from, to, _, _) => Qle_bool from u && Qle_bool w to) pieces.

Fixpoint seg_check (pieces : list (Q * Q * Q * Q)) (l : list Q) : bool :=
  match l with
  | u :: ((w :: _) as l') =>
      Qlt_bool u w && covered pieces u w && seg_check pieces l'
  | _ => true
  end.

Definition lo_pieces : list (Q * Q * Q * Q) :=
  [(0, 5, -(1#5), 1); (5, 10, 0, 0)].
Definition mid_pieces : list (Q * Q * Q * Q) :=
  [(0, 5, 1#5, 0); (5, 10, -(1#5), 2)].
Definition hi_pieces : list (Q * Q * Q * Q) :=
  [(0, 5, 0, 0); (5, 10, 1#5, -(1))].
Definition pobre_pieces : list (Q * Q * Q * Q) :=
  [(0, 30, 0, 1); (30, 50, -(1#20), 5#2); (50, 100, 0, 0)].
Definition aceptable_pieces : list (Q * Q * Q * Q) :=
  [(0, 30, 0, 0); (30, 60, 1#30, -(1)); (60, 90, -(1#30), 3);
   (90, 100, 0, 0)].
Definition excelente_pieces : list (Q * Q * Q * Q) :=
  [(0, 70, 0, 0); (70, 90, 1#20, -(7#2)); (90, 100, 0, 1)].

(** The two sums of the loop, written as polynomials of the samples: the
    area under the polygon through the points, and its first moment. *)
Definition seg_area (x1 y1 x2 y2 : Q) : Q := (1#2) * (x2 - x1) * (y1 + y2).
Definition seg_moment (x1 y1 x2 y2 : Q) : Q :=
  (x2 - x1) * (2 * x2 * y2 + x2 * y1 + x1 * y2 + 2 * x1 * y1) / 6.

Fixpoint area (pts : list (Q * Q)) : Q :=
  match pts with
  | (x1, y1) :: (((x2, y2) :: _) as tl) => seg_area x1 y1 x2 y2 + area tl
  | _ => 0
  end.

Fixpoint moment (pts : list (Q * Q)) : Q :=
  match pts with
  | (x1, y1) :: (((x2, y2) :: _) as tl) => seg_moment x1 y1 x2 y2 + moment tl
  | _ => 0
  end.

(** Points with increasing abscissas and non-negative heights. *)
Fixpoint good (pts : list (Q * Q)) : Prop :=
  match pts with
  | [] => True
  | (x1, y1) :: tl =>
      0 <= y1 /\
      match tl with (x2, _) :: _ => x1 < x2 | [] => True end /\
      good tl
  end.

Fixpoint increasing (l : list Q) : Prop :=
  match l with
  | u :: ((w :: _) as l') => u < w /\ increasing l'
  | _ => True
  end.

Fixpoint increasingb (l : list Q) : bool :=
  match l with
  | u :: ((w :: _) as l') => Qlt_bool u w && increasingb l'
  | _ => true
  end.

(** The table of degrees [fuzz_all] builds from the three inputs. *)
Definition table (n c e : Q) : Memberships :=
  [("nitidez", "baja", lo n); ("nitidez", "media", mid n);
   ("nitidez", "alta", hi n);
   ("contraste", "bajo", lo c); ("contraste", "normal", mid c);
   ("contraste", "alto", hi c);
   ("exposicion", "oscura", lo e); ("exposicion", "correcta", mid e);
   ("exposicion", "brillante", hi e)]%string.

(** The activations of the eight rules on the inputs of a call, in the
    order of the source. *)
Definition activations (n c e : Q) : Exc + list (option Q) :=
  match fuzz_all (antecedents calidad_ctrl) (inputs_of n c e) with
  | inl err => inl err
  | inr t => inr (map (activation t) (rules calidad_ctrl))
  end.


(** An upload named ["..."]: [secure_filename] strips it to the empty
    string, the path is the upload folder itself, [file.save] cannot open a
    directory for writing, and in the [finally] block the folder exists and
    [os.remove] refuses to remove a directory. *)
Definition is_a_directory : string :=
  "[Errno 21] Is a directory: 'uploads/'".

Definition dotted_env : App.Env :=
  App.mkEnv
    (fun name => if String.eqb name "..." then EmptyString else name)
    (fun _ => inl "No se pudo cargar la imagen"%string)
    (fun path => String.eqb path "uploads/")
    (fun path => if String.eqb path "uploads/" then Some is_a_directory
                 else None).

Definition dotted_file : App.FileStorage :=
  App.mkFile "..."
    (fun path => if String.eqb path "uploads/" then Some is_a_directory
                 else None).



(** The points of the polygon that [find_memberships] hands to [defuzz]. *)
Definition pts (f : Q -> Q) (G : list Q) : list (Q * Q) :=
  combine G (map f G).

(** When every breakpoint of a piecewise-linear function is a sample of the
    grid, the polygon through the samples is the function itself, and the
    sums of the centroid loop are its integrals. *)
Definition clamp (from to v : Q) : Q := Qmin to (Qmax from v).

(** Antiderivatives of [m * v + c] and of [v * (m * v + c)]. *)
Definition T_area (m c v : Q) : Q := m * v * v * (1#2) + c * v.
Definition T_moment (m c v : Q) : Q :=
  m * v * v * v * (1#3) + c * v * v * (1#2).
















(** Lists of pairwise equal numbers. *)
Definition same : list Q -> list Q -> Prop := Forall2 Qeq.

(** Two figures with the same moment and area, or none on both sides. *)
Definition same_figure (f f' : option (Q * Q)) : Prop :=
  match f, f' with
  | None, None => True
  | Some (m, a), Some (m', a') => m == m' /\ a == a'
  | _, _ => False
  end.

(** The cache holds one entry for each run counted since the last flush,
    and is flushed before the count reaches [flush_after_run]. *)
Definition cache_inv (s : ControlSystemSimulation) : Prop :=
  List.length (calculated s) = run s /\ (run s < flush_after_run)%nat.

(** The simulator a call leaves, when it answers [v]. *)
Definition after_call (s : ControlSystemSimulation) (n c e v : Q)
  : ControlSystemSimulation :=
  match calculated_get (calculated s) (inputs_of n c e) with
  | Some _ =>
      mkSim calidad_ctrl (inputs_of n c e)
            (dict_set (output s) "calidad_estetica" v)
            (calculated s) (run s)
  | None =>
      record_run (mkSim calidad_ctrl (inputs_of n c e) (output s)
                        (calculated s) (run s))
                 [("calidad_estetica"%string, v)]
  end.

(** The engine as the server holds it: the one built at start-up, then the
    one each request leaves. *)
Inductive served : option ControlSystemSimulation -> Prop :=
| served_start : served App.CALIDAD_SIMULADOR
| served_request env st files :
    served st ->
    served (snd (App.upload_and_evaluate_fuzzy_api env st files)).

(** The path the handler saves an upload under. *)
Definition upload_path (env : App.Env) (file : App.FileStorage) : string :=
  App.path_join App.UPLOAD_FOLDER
    (App.secure_filename env (App.filename file)).

(** The clean-up of the [finally] block goes through: there is nothing to
    remove, or [os.remove] succeeds. *)
Definition cleanup_ok (env : App.Env) (path : string) : Prop :=
  App.path_exists env path = false \/ App.os_remove env path = None.

(** A request that reaches the [try] block. *)
Definition has_upload (files : list (string * App.FileStorage))
  (file : App.FileStorage) : Prop :=
  dict_get files "imageFile" = Some file /\
  App.filename file <> EmptyString.

(** A well-behaved environment and upload, and an environment in which the
    image cannot be read, for the examples. *)
Definition photo_env : App.Env :=
  App.mkEnv (fun name => name)
            (fun _ => inr (7, 6, 5))
            (fun _ => true)
            (fun _ => None).

Definition unreadable : string :=
  "No se pudo cargar la imagen en: uploads/foto.jpg".

Definition broken_env : App.Env :=
  App.mkEnv (fun name => name)
            (fun _ => inl unreadable)
            (fun _ => true)
            (fun _ => None).

Definition photo_file : App.FileStorage :=
  App.mkFile "foto.jpg" (fun _ => None).

(** The answer the [except] branch prepares. *)
Definition internal_error (e : string) : App.Outcome :=
  App.Response [("calidad"%string, App.JNum 50);
                ("error"%string,
                 App.JStr (String.append "Error interno: " e));
                ("status"%string, App.JStr "error")] 500.




(** * Properties *)

Lemma Qlt_bool_iff x y : Qlt_bool x y = true <-> x < y.
Proof.
  unfold Qlt_bool. rewrite negb_true_iff.
  split; intro H.
  - apply Qnot_le_lt. intro L. apply Qle_bool_iff in L. congruence.
  - destruct (Qle_bool y x) eqn:E; [|reflexivity].
    apply Qle_bool_iff in E. exfalso. apply (Qlt_not_le _ _ H E).
Qed.

Lemma Qlt_bool_false x y : Qlt_bool x y = false <-> y <= x.
Proof.
  unfold Qlt_bool. rewrite negb_false_iff. apply Qle_bool_iff.
Qed.

Lemma Qle_bool_false x y : Qle_bool x y = false <-> y < x.
Proof.
  rewrite <- Qlt_bool_iff. unfold Qlt_bool.
  destruct (Qle_bool x y); simpl; split; congruence.
Qed.

Lemma Qeq_bool_false x y : Qeq_bool x y = false <-> ~ x == y.
Proof.
  split; intro H.
  - apply Qeq_bool_neq; assumption.
  - destruct (Qeq_bool x y) eqn:E; [|reflexivity].
    apply Qeq_bool_iff in E. contradiction.
Qed.

(** Case analysis on the boolean tests, leaving the facts in the context. *)
Ltac qcase_one :=
  match goal with
  | |- context [Qlt_bool ?a ?b] =>
      let E := fresh "E" in
      destruct (Qlt_bool a b) eqn:E;
      [apply Qlt_bool_iff in E | apply Qlt_bool_false in E]
  | |- context [Qle_bool ?a ?b] =>
      let E := fresh "E" in
      destruct (Qle_bool a b) eqn:E;
      [apply Qle_bool_iff in E | apply Qle_bool_false in E]
  | |- context [Qeq_bool ?a ?b] =>
      let E := fresh "E" in
      destruct (Qeq_bool a b) eqn:E;
      [apply Qeq_bool_iff in E | apply Qeq_bool_false in E]
  end.
Ltac qcases := repeat (qcase_one; cbn [negb andb orb xorb]).

(** ** The engine as built *)

Lemma initialize_ok : initialize_fuzzy_system = Some calidad_simulador.
Proof. reflexivity. Qed.

Ltac engine_red :=
  lazy -[Fuzz.interp_membership Np.fmax Np.fmin Qmult Qplus Qdiv Qminus
         defuzz Fuzz.defuzz Np.union1d Fuzz.interp_universe_fast
         universo_entrada universo_salida
         mf_lo mf_mid mf_hi mf_pobre mf_aceptable mf_excelente].

Lemma infer_calidad n c e :
  infer calidad_ctrl
    [("nitidez"%string, n); ("contraste"%string, c);
     ("exposicion"%string, e)] [] =
  match defuzz calidad_estetica
          (cuts (cut_pobre n c e) (cut_excelente n c e)
                (cut_aceptable n c e)) with
  | inl err => inl err
  | inr v => inr [("calidad_estetica"%string, v)]
  end.
Proof. engine_red. reflexivity. Qed.

Lemma defuzz_calidad p x a :
  defuzz calidad_estetica (cuts p x a) =
  match Fuzz.defuzz (grid p a x) (map (agg p a x) (grid p a x)) with
  | None => inl (ValueError "Crisp output cannot be calculated, likely because the system is too sparse.")
  | Some v => inr v
  end.
Proof. unfold defuzz. engine_red. reflexivity. Qed.

(** ** The simulator as a state machine *)

Lemma float_same_eq x y : float_same x y = true -> x = y.
Proof.
  unfold float_same. intro H. apply andb_true_iff in H. destruct H as [H1 H2].
  apply Z.eqb_eq in H1. apply Pos.eqb_eq in H2.
  destruct x, y; simpl in *; congruence.
Qed.

Lemma inputs_same_eq a : forall b, inputs_same a b = true -> a = b.
Proof.
  induction a as [|[k x] a IH]; intros [|[k' y] b] H; simpl in H;
    try discriminate; [reflexivity|].
  apply andb_true_iff in H. destruct H as [H H3].
  apply andb_true_iff in H. destruct H as [H1 H2].
  apply String.eqb_eq in H1. apply float_same_eq in H2.
  rewrite (IH _ H3). congruence.
Qed.

Lemma calculated_get_In c k o :
  calculated_get c k = Some o -> In (k, o) c.
Proof.
  induction c as [|[k' o'] c IH]; simpl; [discriminate|].
  destruct (inputs_same k k') eqn:E.
  - intro H. injection H as ->. apply inputs_same_eq in E. subst. now left.
  - intro H. right. auto.
Qed.

Lemma sim_inv_init : sim_inv calidad_simulador.
Proof.
  constructor; simpl; auto. intros k o [].
Qed.

Lemma find_nitidez :
  find_var (antecedents calidad_ctrl) "nitidez" = Some nitidez.
Proof. engine_red. reflexivity. Qed.

Lemma find_contraste :
  find_var (antecedents calidad_ctrl) "contraste" = Some contraste.
Proof. engine_red. reflexivity. Qed.

Lemma find_exposicion :
  find_var (antecedents calidad_ctrl) "exposicion" = Some exposicion.
Proof. engine_red. reflexivity. Qed.

Lemma dict_get_set {A} (d : list (string * A)) k v :
  dict_get (dict_set d k v) k = Some v.
Proof.
  induction d as [|[k' v'] d IH]; simpl.
  - now rewrite String.eqb_refl.
  - destruct (String.eqb k k') eqn:E; simpl.
    + now rewrite String.eqb_refl.
    + now rewrite E.
Qed.

(** A call of [evaluate_quality] on a reachable simulator, step by step. *)
Lemma evaluate_quality_unfold s n c e :
  sim_inv s ->
  let s3 := mkSim calidad_ctrl (inputs_of n c e) (output s) (calculated s)
                  (run s) in
  evaluate_quality n c e s =
  match calculated_get (calculated s) (inputs_of n c e) with
  | Some o =>
      output_get "calidad_estetica"
        (mkSim calidad_ctrl (inputs_of n c e) (dict_update (output s) o)
               (calculated s) (run s))
  | None =>
      match infer calidad_ctrl (inputs_of n c e) [] with
      | inl err => (inl err, s3)
      | inr o => output_get "calidad_estetica" (record_run s3 o)
      end
  end.
Proof.
  intros [Hc Hi _] s3.
  unfold evaluate_quality, bind.
  unfold input_set at 1. rewrite Hc, find_nitidez.
  unfold input_set at 1. cbn [ctrl]. rewrite find_contraste.
  unfold input_set at 1. cbn [ctrl]. rewrite find_exposicion.
  cbn [input output calculated run ctrl].
  assert (HI : dict_set (dict_set (dict_set (input s) "nitidez"
                                     (clip nitidez n))
                           "contraste" (clip contraste c))
                 "exposicion" (clip exposicion e) = inputs_of n c e).
  { destruct Hi as [Hi | (n0 & c0 & e0 & Hi)]; rewrite Hi; reflexivity. }
  rewrite HI. subst s3.
  unfold compute. cbn [input output calculated run ctrl].
  destruct (calculated_get (calculated s) (inputs_of n c e)) as [o|].
  - unfold ret. destruct (output_get _ _) as [[err|v] s']; reflexivity.
  - destruct (infer calidad_ctrl (inputs_of n c e) []) as [err|o];
      [reflexivity|].
    unfold ret, record_run. cbn [input output calculated run ctrl].
    destruct (output_get _ _) as [[err|v] s']; reflexivity.
Qed.

Lemma infer_inputs_of n c e :
  infer calidad_ctrl (inputs_of n c e) [] =
  match quality n c e with
  | inl err => inl err
  | inr v => inr [("calidad_estetica"%string, v)]
  end.
Proof. unfold quality, inputs_of. apply infer_calidad. Qed.

Lemma sim_inv_record_run s o :
  sim_inv s -> infer calidad_ctrl (input s) [] = inr o ->
  sim_inv (record_run s o).
Proof.
  intros [Hc Hi Hk] H. unfold record_run.
  cbn [run].
  destruct (Nat.eqb _ 0); constructor;
    cbn [reset_simulation ctrl input calculated]; auto.
  - intros k o' [].
  - intros k o' [E|E]; [|auto]. now injection E as <- <-.
Qed.

(** A run on a reachable simulator answers [quality], whatever it has
    cached, and leaves a simulator that satisfies the invariant. *)
Lemma evaluate_quality_inv s n c e :
  sim_inv s ->
  fst (evaluate_quality n c e s) = quality n c e /\
  sim_inv (snd (evaluate_quality n c e s)).
Proof.
  intro I. rewrite (evaluate_quality_unfold _ _ _ _ I).
  pose proof (infer_inputs_of n c e) as HI.
  assert (I3 : sim_inv (mkSim calidad_ctrl (inputs_of n c e) (output s)
                          (calculated s) (run s))).
  { destruct I as [Hc Hi Hk]. constructor; cbn [ctrl input calculated]; auto.
    right. now exists (clip nitidez n), (clip contraste c),
                      (clip exposicion e). }
  destruct (calculated_get (calculated s) (inputs_of n c e)) as [o|] eqn:G.
  - apply calculated_get_In in G. apply (inv_cache _ I) in G.
    rewrite HI in G.
    destruct (quality n c e) as [err|v]; [discriminate|].
    injection G as <-.
    cbn [dict_update]. unfold output_get. cbn [output].
    rewrite dict_get_set. cbn [fst snd]. split; [reflexivity|].
    destruct I3 as [Hc Hi Hk]. constructor; cbn [ctrl input calculated]; auto.
  - rewrite HI. destruct (quality n c e) as [err|v] eqn:Q.
    + cbn [fst snd]. auto.
    + pose proof (sim_inv_record_run _ _ I3 HI) as I4.
      unfold output_get.
      assert (D : dict_get (output (record_run
                     (mkSim calidad_ctrl (inputs_of n c e) (output s)
                        (calculated s) (run s))
                     [("calidad_estetica"%string, v)])) "calidad_estetica"
                  = Some v).
      { unfold record_run. cbn [run].
        destruct (Nat.eqb _ 0); cbn [reset_simulation output dict_update];
          apply dict_get_set. }
      rewrite D. cbn [fst snd]. auto.
Qed.

Lemma reachable_inv s : reachable s -> sim_inv s.
Proof.
  induction 1 as [s H | s n c e _ IH].
  - rewrite initialize_ok in H. injection H as <-. apply sim_inv_init.
  - apply evaluate_quality_inv, IH.
Qed.

Lemma evaluate_quality_reachable s n c e :
  reachable s -> fst (evaluate_quality n c e s) = quality n c e.
Proof.
  intro R. apply evaluate_quality_inv, reachable_inv, R.
Qed.

(** ** Interpolation of sampled piecewise-linear functions *)

#[global] Instance Qlt_bool_proper : Proper (Qeq ==> Qeq ==> eq) Qlt_bool.
Proof.
  intros x x' Hx y y' Hy. unfold Qlt_bool. now rewrite Hx, Hy.
Qed.

#[global] Instance trimf_pt_proper :
  Proper (Qeq ==> Qeq ==> Qeq ==> Qeq ==> Qeq) Fuzz.trimf_pt.
Proof.
  intros a a' Ha b b' Hb c c' Hc x x' Hx. unfold Fuzz.trimf_pt.
  replace (Qeq_bool x b) with (Qeq_bool x' b') by now rewrite Hx, Hb.
  replace (Qeq_bool b c) with (Qeq_bool b' c') by now rewrite Hb, Hc.
  replace (Qeq_bool a b) with (Qeq_bool a' b') by now rewrite Ha, Hb.
  replace (Qlt_bool a x) with (Qlt_bool a' x') by now rewrite Ha, Hx.
  replace (Qlt_bool x b) with (Qlt_bool x' b') by now rewrite Hx, Hb.
  replace (Qlt_bool b x) with (Qlt_bool b' x') by now rewrite Hx, Hb.
  replace (Qlt_bool x c) with (Qlt_bool x' c') by now rewrite Hx, Hc.
  destruct (Qeq_bool x' b'); [reflexivity|].
  destruct (negb (Qeq_bool b' c') && (Qlt_bool b' x' && Qlt_bool x' c')).
  - now rewrite Hb, Hc, Hx.
  - destruct (negb (Qeq_bool a' b') && (Qlt_bool a' x' && Qlt_bool x' b')).
    + now rewrite Ha, Hb, Hx.
    + reflexivity.
Qed.

#[global] Instance trapmf_pt_proper :
  Proper (Qeq ==> Qeq ==> Qeq ==> Qeq ==> Qeq ==> Qeq) Fuzz.trapmf_pt.
Proof.
  intros a a' Ha b b' Hb c c' Hc d d' Hd x x' Hx. unfold Fuzz.trapmf_pt.
  replace (Qlt_bool d x) with (Qlt_bool d' x') by now rewrite Hx, Hd.
  replace (Qlt_bool x a) with (Qlt_bool x' a') by now rewrite Hx, Ha.
  replace (Qle_bool c x) with (Qle_bool c' x') by now rewrite Hx, Hc.
  replace (Qle_bool x b) with (Qle_bool x' b') by now rewrite Hx, Hb.
  destruct (Qlt_bool d' x'); [reflexivity|].
  destruct (Qlt_bool x' a'); [reflexivity|].
  destruct (Qle_bool c' x').
  - now rewrite Hc, Hd, Hx.
  - destruct (Qle_bool x' b'); [|reflexivity].
    now rewrite Ha, Hb, Hx.
Qed.

Section Interp.
Variable f : Q -> Q.
Hypothesis f_proper : Proper (Qeq ==> Qeq) f.

Lemma last_cons_default (x0 : Q) xs d : last (x0 :: xs) d = last xs x0.
Proof.
  revert x0 d. induction xs as [|x1 xs IH]; intros x0 d; [reflexivity|].
  change (last (x0 :: x1 :: xs) d) with (last (x1 :: xs) d).
  now rewrite !IH.
Qed.

Lemma interp_scan_affine xs : forall x0 x,
  seg_ok f (x0 :: xs) -> x0 <= x -> x <= last xs x0 ->
  Np.interp_scan x x0 (f x0) (combine xs (map f xs)) == f x.
Proof.
  induction xs as [|x1 xs IH]; intros x0 x S L U.
  - simpl in *. apply f_proper. lra.
  - destruct S as (Hlt & Hseg & S').
    rewrite last_cons_default in U.
    cbn [map combine Np.interp_scan].
    qcases.
    + apply f_proper. assumption.
    + rewrite (Hseg x); [reflexivity|lra].
    + apply IH; auto.
Qed.

(** Inside the sampled range, interpolating the samples of [f] gives [f];
    outside, the [left] and [right] values. *)
Lemma interp_affine x0 xs x l r :
  seg_ok f (x0 :: xs) -> x0 <= x <= last xs x0 ->
  Np.interp x (x0 :: xs) (map f (x0 :: xs)) l r == f x.
Proof.
  intros S [L U]. unfold Np.interp.
  cbn [map combine]. rewrite last_cons_default.
  qcases; try lra.
  apply interp_scan_affine; auto.
Qed.

Lemma interp_left x0 xs x l r :
  seg_ok f (x0 :: xs) -> x < x0 ->
  Np.interp x (x0 :: xs) (map f (x0 :: xs)) l r = l.
Proof.
  intros S L. unfold Np.interp.
  cbn [map combine]. rewrite last_cons_default.
  assert (x0 <= last xs x0).
  { clear L. revert x0 S. induction xs as [|x1 xs IH]; intros x0 S.
    - simpl. lra.
    - destruct S as (Hlt & _ & S'). specialize (IH _ S').
      change (last (x1 :: xs) x0) with
        (match xs with [] => x1 | _ => last xs x0 end).
      destruct xs as [|x2 xs]; [lra|].
      rewrite <- (last_cons_default x1 (x2 :: xs) x0) in IH.
      change (last (x1 :: x2 :: xs) x0) with (last (x2 :: xs) x0) in IH.
      lra. }
  qcases; try lra; reflexivity.
Qed.

Lemma interp_right x0 xs x l r :
  last xs x0 < x ->
  Np.interp x (x0 :: xs) (map f (x0 :: xs)) l r = r.
Proof.
  intros L. unfold Np.interp.
  cbn [map combine]. rewrite last_cons_default.
  qcases; try lra; reflexivity.
Qed.

Lemma seg_check_ok pieces l :
  on_pieces f pieces -> seg_check pieces l = true -> seg_ok f l.
Proof.
  intros P. induction l as [|u l IH]; [simpl; auto|].
  destruct l as [|w l]; [simpl; auto|].
  intro H. cbn [seg_check] in H.
  apply andb_true_iff in H. destruct H as [H H3].
  apply andb_true_iff in H. destruct H as [H1 H2].
  apply Qlt_bool_iff in H1.
  cbn [seg_ok]. split; [assumption|]. split; [|apply IH; assumption].
  unfold covered in H2. apply existsb_exists in H2.
  destruct H2 as ([[[from to] m] c] & Hin & Hc).
  apply andb_true_iff in Hc. destruct Hc as [Hf Ht].
  apply Qle_bool_iff in Hf. apply Qle_bool_iff in Ht.
  unfold on_pieces in P. rewrite Forall_forall in P.
  specialize (P _ Hin). cbn in P.
  intros v Hv.
  rewrite (P v), (P u), (P w) by lra.
  field. lra.
Qed.

End Interp.

Lemma interp_membership_affine f pieces xs v :
  Proper (Qeq ==> Qeq) f -> on_pieces f pieces ->
  seg_check pieces xs = true -> xs <> [] ->
  hd 0 xs <= v <= last xs 0 ->
  Fuzz.interp_membership xs (map f xs) v == f v.
Proof.
  intros Pf P C N B. destruct xs as [|x0 xs]; [congruence|].
  unfold Fuzz.interp_membership. rewrite last_cons_default in B.
  apply interp_affine; auto.
  eapply seg_check_ok; eauto.
Qed.

(** The membership functions of the engine, piece by piece. *)
Ltac pieces_tac unf :=
  repeat constructor; intros v Hv; unf; cbn beta zeta;
  qcases; try lra; try (field; lra).

Lemma lo_on_pieces : on_pieces (Fuzz.trimf_pt 0 0 5) lo_pieces.
Proof. pieces_tac ltac:(unfold Fuzz.trimf_pt). Qed.

Lemma mid_on_pieces : on_pieces (Fuzz.trimf_pt 0 5 10) mid_pieces.
Proof. pieces_tac ltac:(unfold Fuzz.trimf_pt). Qed.

Lemma hi_on_pieces : on_pieces (Fuzz.trimf_pt 5 10 10) hi_pieces.
Proof. pieces_tac ltac:(unfold Fuzz.trimf_pt). Qed.

Lemma pobre_on_pieces : on_pieces (Fuzz.trapmf_pt 0 0 30 50) pobre_pieces.
Proof. pieces_tac ltac:(unfold Fuzz.trapmf_pt, Fuzz.trimf_pt). Qed.

Lemma aceptable_on_pieces :
  on_pieces (Fuzz.trimf_pt 30 60 90) aceptable_pieces.
Proof. pieces_tac ltac:(unfold Fuzz.trimf_pt). Qed.

Lemma excelente_on_pieces :
  on_pieces (Fuzz.trapmf_pt 70 90 100 100) excelente_pieces.
Proof. pieces_tac ltac:(unfold Fuzz.trapmf_pt, Fuzz.trimf_pt). Qed.

(** ** The centroid of a sampled set *)

(** A figure between two samples [x1 < x2] with heights [y1, y2 >= 0] is
    skipped only when both heights are zero; otherwise its area is positive
    and its moment lies strictly between the samples. *)
Lemma figure_none x1 y1 x2 y2 :
  x1 < x2 -> Fuzz.figure x1 y1 x2 y2 = None -> y1 == 0 /\ y2 == 0.
Proof.
  unfold Fuzz.figure. intros L. qcases; try discriminate; try lra.
Qed.

Lemma figure_some x1 y1 x2 y2 moment area :
  x1 < x2 -> 0 <= y1 -> 0 <= y2 ->
  Fuzz.figure x1 y1 x2 y2 = Some (moment, area) ->
  0 < area /\ x1 < moment < x2 /\
  area == (1#2) * (x2 - x1) * (y1 + y2) /\
  moment * area ==
    (x2 - x1) * (2 * x2 * y2 + x2 * y1 + x1 * y2 + 2 * x1 * y1) / 6.
Proof.
  unfold Fuzz.figure. intros L H1 H2.
  assert (D : 0 < x2 - x1) by lra.
  qcases; intro H; try discriminate; injection H as <- <-.
  all: try lra.
  - assert (0 < y2) by lra.
    match goal with H : y1 == y2 |- _ => rewrite H end.
    repeat split; try lra; try ring; try field.
    apply Qmult_lt_0_compat; lra.
  - assert (0 < y2) by lra.
    match goal with H : y1 == 0 |- _ => rewrite H end.
    repeat split; try lra; try ring; try field.
    repeat apply Qmult_lt_0_compat; lra.
  - assert (0 < y1) by lra.
    match goal with H : y2 == 0 |- _ => rewrite H end.
    repeat split; try lra; try ring; try field.
    repeat apply Qmult_lt_0_compat; lra.
  - assert (0 < y1) by lra. assert (0 < y2) by lra.
    assert (S : 0 < y1 + y2) by lra.
    repeat split; try ring; try (field; lra).
    + repeat apply Qmult_lt_0_compat; lra.
    + assert (0 < (2 # 3) * (x2 - x1) * (y2 + (1 # 2) * y1) / (y1 + y2)).
      { apply Qlt_shift_div_l; [assumption|].
        rewrite Qmult_0_l. repeat apply Qmult_lt_0_compat; lra. }
      lra.
    + assert ((2 # 3) * (x2 - x1) * (y2 + (1 # 2) * y1) / (y1 + y2)
              < x2 - x1).
      { apply Qlt_shift_div_r; [assumption|].
        assert (0 < (x2 - x1) * ((2#3) * y1 + (1#3) * y2)).
        { apply Qmult_lt_0_compat; lra. }
        assert ((x2 - x1) * (y1 + y2) -
                (2 # 3) * (x2 - x1) * (y2 + (1 # 2) * y1) ==
                (x2 - x1) * ((2#3) * y1 + (1#3) * y2)) by ring.
        lra. }
      lra.
Qed.

Lemma area_cons x1 y1 x2 y2 tl :
  area ((x1, y1) :: (x2, y2) :: tl) =
  seg_area x1 y1 x2 y2 + area ((x2, y2) :: tl).
Proof. reflexivity. Qed.

Lemma moment_cons x1 y1 x2 y2 tl :
  moment ((x1, y1) :: (x2, y2) :: tl) =
  seg_moment x1 y1 x2 y2 + moment ((x2, y2) :: tl).
Proof. reflexivity. Qed.

Lemma centroid_loop_spec rest : forall x1 y1 m a,
  good ((x1, y1) :: rest) ->
  fst (Fuzz.centroid_loop x1 y1 rest m a) == m + moment ((x1, y1) :: rest) /\
  snd (Fuzz.centroid_loop x1 y1 rest m a) == a + area ((x1, y1) :: rest).
Proof.
  induction rest as [|[x2 y2] rest IH]; intros x1 y1 m a G.
  - simpl. split; ring.
  - destruct G as (H1 & L & G2). pose proof G2 as (H2 & _).
    cbn [Fuzz.centroid_loop]. rewrite moment_cons, area_cons.
    destruct (Fuzz.figure x1 y1 x2 y2) as [[mo ar]|] eqn:F.
    + destruct (figure_some _ _ _ _ _ _ L H1 H2 F) as (_ & _ & Ea & Em).
      destruct (IH x2 y2 (m + mo * ar) (a + ar) G2) as [I1 I2].
      rewrite I1, I2, Em, Ea. unfold seg_moment, seg_area. split; field.
    + destruct (figure_none _ _ _ _ L F) as [Z1 Z2].
      destruct (IH x2 y2 m a G2) as [I1 I2].
      assert (M0 : seg_moment x1 y1 x2 y2 == 0).
      { unfold seg_moment. rewrite Z1, Z2. field. }
      assert (A0 : seg_area x1 y1 x2 y2 == 0).
      { unfold seg_area. rewrite Z1, Z2. field. }
      rewrite I1, I2, M0, A0. split; ring.
Qed.

Lemma seg_bounds x1 y1 x2 y2 from to :
  x1 < x2 -> 0 <= y1 -> 0 <= y2 -> from <= x1 -> x2 <= to ->
  0 <= seg_area x1 y1 x2 y2 /\
  from * seg_area x1 y1 x2 y2 <= seg_moment x1 y1 x2 y2 /\
  seg_moment x1 y1 x2 y2 <= to * seg_area x1 y1 x2 y2 /\
  (0 < y1 + y2 ->
   0 < seg_area x1 y1 x2 y2 /\
   from * seg_area x1 y1 x2 y2 < seg_moment x1 y1 x2 y2 /\
   seg_moment x1 y1 x2 y2 < to * seg_area x1 y1 x2 y2).
Proof.
  intros L H1 H2 Hf Ht.
  assert (E1 : seg_moment x1 y1 x2 y2 - from * seg_area x1 y1 x2 y2 ==
               (x1 - from) * ((1#2) * (x2 - x1) * (y1 + y2)) +
               (x2 - x1) * (x2 - x1) * (2 * y2 + y1) * (1#6)).
  { unfold seg_moment, seg_area. field. }
  assert (E2 : to * seg_area x1 y1 x2 y2 - seg_moment x1 y1 x2 y2 ==
               (to - x2) * ((1#2) * (x2 - x1) * (y1 + y2)) +
               (x2 - x1) * (x2 - x1) * (y2 + 2 * y1) * (1#6)).
  { unfold seg_moment, seg_area. field. }
  assert (A0 : 0 <= (1#2) * (x2 - x1) * (y1 + y2)).
  { repeat apply Qmult_le_0_compat; lra. }
  assert (B1 : 0 <= (x1 - from) * ((1#2) * (x2 - x1) * (y1 + y2))).
  { apply Qmult_le_0_compat; lra. }
  assert (B2 : 0 <= (to - x2) * ((1#2) * (x2 - x1) * (y1 + y2))).
  { apply Qmult_le_0_compat; lra. }
  assert (C1 : 0 <= (x2 - x1) * (x2 - x1) * (2 * y2 + y1) * (1#6)).
  { repeat apply Qmult_le_0_compat; lra. }
  assert (C2 : 0 <= (x2 - x1) * (x2 - x1) * (y2 + 2 * y1) * (1#6)).
  { repeat apply Qmult_le_0_compat; lra. }
  fold (seg_area x1 y1 x2 y2) in A0.
  repeat split; try lra.
  - unfold seg_area. repeat apply Qmult_lt_0_compat; lra.
  - assert (0 < (x2 - x1) * (x2 - x1) * (2 * y2 + y1) * (1#6)).
    { repeat apply Qmult_lt_0_compat; lra. }
    lra.
  - assert (0 < (x2 - x1) * (x2 - x1) * (y2 + 2 * y1) * (1#6)).
    { repeat apply Qmult_lt_0_compat; lra. }
    lra.
Qed.

Lemma area_moment_bounds from to pts :
  good pts -> Forall (fun p => from <= fst p <= to) pts ->
  0 <= area pts /\
  from * area pts <= moment pts /\ moment pts <= to * area pts /\
  (0 < area pts ->
   from * area pts < moment pts /\ moment pts < to * area pts).
Proof.
  induction pts as [|[x1 y1] tl IH]; intros G B.
  - simpl. repeat split; lra.
  - destruct tl as [|[x2 y2] tl].
    + simpl. repeat split; lra.
    + destruct G as (H1 & L & G2). pose proof G2 as (H2 & _).
      inversion B as [|? ? B1 B2]; subst. cbn [fst] in B1.
      pose proof B2 as B2'. inversion B2' as [|? ? B3 _]; subst.
      cbn [fst] in B3.
      destruct (IH G2 B2) as (Ia & Il & Iu & Is).
      rewrite area_cons, moment_cons.
      destruct (seg_bounds x1 y1 x2 y2 from to L H1 H2) as (Sa & Sl & Su & Ss);
        try lra.
      split; [lra|]. split; [lra|]. split; [lra|].
      intro P. destruct (Qlt_le_dec 0 (y1 + y2)) as [Y|Y].
      * destruct (Ss Y). lra.
      * assert (Z : seg_area x1 y1 x2 y2 == 0).
        { unfold seg_area. assert (y1 + y2 == 0) by lra.
          setoid_replace (y1 + y2) with 0 by assumption. ring. }
        assert (P2 : 0 < area ((x2, y2) :: tl)) by lra.
        destruct (Is P2). lra.
Qed.

Lemma good_area_nonneg pts : good pts -> 0 <= area pts.
Proof.
  induction pts as [|[x1 y1] tl IH]; intro G; [simpl; lra|].
  destruct tl as [|[x2 y2] tl]; [simpl; lra|].
  destruct G as (H1 & L & G2). pose proof G2 as (H2 & _).
  rewrite area_cons. specialize (IH G2).
  assert (0 <= seg_area x1 y1 x2 y2).
  { unfold seg_area. repeat apply Qmult_le_0_compat; lra. }
  lra.
Qed.

(** Two points or more, one of positive height: the area is positive. *)
Lemma area_pos pts :
  good pts -> (2 <= List.length pts)%nat ->
  Exists (fun p => 0 < snd p) pts -> 0 < area pts.
Proof.
  induction pts as [|[x1 y1] tl IH]; intros G N E; [simpl in N; lia|].
  destruct tl as [|[x2 y2] tl]; [simpl in N; lia|].
  destruct G as (H1 & L & G2). pose proof G2 as (H2 & _).
  rewrite area_cons. pose proof (good_area_nonneg _ G2) as A2.
  assert (S : 0 < y1 + y2 -> 0 < seg_area x1 y1 x2 y2).
  { intro. unfold seg_area. repeat apply Qmult_lt_0_compat; lra. }
  assert (S0 : 0 <= seg_area x1 y1 x2 y2).
  { unfold seg_area. repeat apply Qmult_le_0_compat; lra. }
  inversion E as [? ? P | ? ? E2]; subst.
  - cbn [snd] in P. assert (0 < y1 + y2) by lra. specialize (S H). lra.
  - inversion E2 as [? ? P | ? ? E3]; subst.
    + cbn [snd] in P. assert (0 < y1 + y2) by lra. specialize (S H). lra.
    + destruct tl as [|p tl]; [inversion E3|].
      assert (0 < area ((x2, y2) :: p :: tl)).
      { apply IH; auto. simpl. lia. }
      lra.
Qed.

Lemma sum_fold l : forall a, fold_left Qplus l a == a + fold_left Qplus l 0.
Proof.
  induction l as [|x l IH]; intro a; simpl; [ring|].
  rewrite (IH (a + x)), (IH (0 + x)). ring.
Qed.

Lemma sum_pos l :
  Forall (fun y => 0 <= y) l -> Exists (fun y => 0 < y) l -> 0 < Np.sum l.
Proof.
  unfold Np.sum. induction l as [|x l IH]; intros F E; [inversion E|].
  inversion F as [|? ? Fx Fl]; subst. simpl. rewrite sum_fold.
  assert (0 <= fold_left Qplus l 0).
  { clear -Fl. induction l as [|y l IH]; simpl; [lra|].
    inversion Fl; subst. rewrite sum_fold. specialize (IH H2). lra. }
  inversion E as [? ? P | ? ? E2]; subst; [lra|].
  specialize (IH Fl E2). lra.
Qed.

(** The centroid of a good sampled set with some positive height on two
    points or more lies strictly inside the sampled range. *)
Lemma centroid_inside to xs ys :
  List.length xs = List.length ys ->
  good (combine xs ys) -> (2 <= List.length xs)%nat ->
  Forall (fun x => 0 <= x <= to) xs ->
  Exists (fun y => 0 < y) ys ->
  0 < Fuzz.centroid xs ys < to.
Proof.
  intros Len G N B E.
  assert (B' : Forall (fun p => 0 <= fst p <= to) (combine xs ys)).
  { rewrite Forall_forall in *. intros [x y] Hin. cbn [fst].
    apply in_combine_l in Hin. auto. }
  assert (E' : Exists (fun p => 0 < snd p) (combine xs ys)).
  { rewrite Exists_exists in *. destruct E as (y & Hin & Hy).
    destruct (In_nth _ _ 0 Hin) as (i & Hi & Hn).
    exists (nth i xs 0, y). split; [|assumption].
    rewrite <- Hn, <- (combine_nth xs ys i 0 0 Len).
    apply nth_In. rewrite length_combine. lia. }
  assert (N' : (2 <= List.length (combine xs ys))%nat).
  { rewrite length_combine. lia. }
  pose proof (area_pos _ G N' E') as A.
  destruct (area_moment_bounds 0 to _ G B') as (_ & _ & _ & S).
  destruct (S A) as [S1 S2]. clear S.
  unfold Fuzz.centroid.
  remember (combine xs ys) as pts eqn:C.
  destruct pts as [|[x0 y0] rest]; [simpl in N'; lia|].
  destruct rest as [|p rest]; [simpl in N'; lia|].
  destruct (centroid_loop_spec (p :: rest) x0 y0 0 0 G) as [Em Ea].
  destruct (Fuzz.centroid_loop x0 y0 (p :: rest) 0 0) as [m a].
  cbn [fst snd] in Em, Ea.
  set (AR := area _) in *. set (MO := moment _) in *.
  assert (Ha : 0 < a) by lra.
  assert (Hd : a <= Np.fmax a Fuzz.eps /\ 0 < Np.fmax a Fuzz.eps).
  { unfold Np.fmax. qcases; split; lra. }
  destruct Hd as [Hd1 Hd2].
  assert (0 <= to).
  { destruct B as [|x xs' Bx _]; [simpl in N; lia|lra]. }
  split.
  - apply Qlt_shift_div_l; [assumption|]. lra.
  - apply Qlt_shift_div_r; [assumption|].
    assert (to * a <= to * Np.fmax a Fuzz.eps).
    { rewrite (Qmult_comm to a), (Qmult_comm to (Np.fmax a Fuzz.eps)).
      apply Qmult_le_compat_r; assumption. }
    assert (to * a == to * AR) by (rewrite Ea; ring).
    lra.
Qed.

(** ** The upsampled universe *)

Lemma increasingb_ok l : increasingb l = true -> increasing l.
Proof.
  induction l as [|u l IH]; [simpl; auto|].
  destruct l as [|w l]; [simpl; auto|].
  intro H. change (Qlt_bool u w && increasingb (w :: l) = true) in H.
  apply andb_true_iff in H. destruct H as [H1 H2].
  apply Qlt_bool_iff in H1.
  change (u < w /\ increasing (w :: l)). auto.
Qed.

Lemma increasing_tail u l : increasing (u :: l) -> increasing l.
Proof. destruct l; simpl; tauto. Qed.

Lemma insert_increasing v l :
  increasing l ->
  increasing (Np.insert v l) /\
  (forall b, b < v -> increasing (b :: l) -> increasing (b :: Np.insert v l)).
Proof.
  induction l as [|h t IH]; intro I.
  - simpl. auto.
  - cbn [Np.insert]. destruct (v ?= h) eqn:C.
    + split; [assumption|]. auto.
    + apply Qlt_alt in C. split.
      * cbn [increasing]. auto.
      * intros b Hb Ib. cbn [increasing]. auto.
    + apply Qgt_alt in C. destruct (IH (increasing_tail _ _ I)) as [I1 I2].
      split.
      * apply I2; assumption.
      * intros b Hb Ib. destruct Ib as [Hbh _].
        change (b < h /\ increasing (h :: Np.insert v t)).
        split; [assumption|]. apply I2; assumption.
Qed.

Lemma insert_Forall (P : Q -> Prop) v l :
  P v -> Forall P l -> Forall P (Np.insert v l).
Proof.
  intros Pv. induction l as [|h t IH]; intro F; cbn [Np.insert].
  - auto.
  - inversion F; subst. destruct (v ?= h); auto.
Qed.

Lemma insert_In x v l : In x l -> In x (Np.insert v l).
Proof.
  induction l as [|h t IH]; intro H; [inversion H|].
  cbn [Np.insert]. destruct (v ?= h); simpl in *; tauto.
Qed.

Lemma insert_length v l :
  (List.length l <= List.length (Np.insert v l))%nat.
Proof.
  induction l as [|h t IH]; cbn [Np.insert]; [simpl; lia|].
  destruct (v ?= h); simpl; lia.
Qed.

(** Inserting further values into a sorted array of distinct values keeps it
    so, keeps what was there and stays within the bounds of the values. *)
Lemma inserts_spec (P : Q -> Prop) news : forall l,
  increasing l -> Forall P l -> Forall P news ->
  let l' := fold_left (fun acc v => Np.insert v acc) news l in
  increasing l' /\ Forall P l' /\ (forall x, In x l -> In x l') /\
  (List.length l <= List.length l')%nat.
Proof.
  induction news as [|v news IH]; intros l I F N; cbn [fold_left].
  - auto.
  - inversion N as [|? ? Pv N']; subst.
    destruct (IH (Np.insert v l)) as (I' & F' & In' & L'); auto.
    + apply insert_increasing; assumption.
    + apply insert_Forall; assumption.
    + repeat split; auto.
      * intros x Hx. apply In', insert_In, Hx.
      * pose proof (insert_length v l). lia.
Qed.

(** A crossing lies between the two samples it is computed from. *)
Lemma crossing_between y x0 m0 x1 m1 :
  x0 < x1 -> xorb (Fuzz.above y m0) (Fuzz.above y m1) = true ->
  x0 <= x0 + (y - m0) * (x1 - x0) / (m1 - m0) <= x1.
Proof.
  intros L X.
  assert (C : (m0 < m1 /\ m0 <= y <= m1) \/ (m1 < m0 /\ m1 <= y <= m0)).
  { revert X. unfold Fuzz.above. qcases; cbn; intro; try discriminate;
      lra. }
  destruct C as [[D B]|[D B]].
  - assert (0 <= (y - m0) * (x1 - x0) / (m1 - m0)).
    { apply Qle_shift_div_l; [lra|]. rewrite Qmult_0_l.
      apply Qmult_le_0_compat; lra. }
    assert ((y - m0) * (x1 - x0) / (m1 - m0) <= x1 - x0).
    { apply Qle_shift_div_r; [lra|].
      rewrite (Qmult_comm (x1 - x0)).
      apply Qmult_le_compat_r; lra. }
    lra.
  - assert (E : (y - m0) * (x1 - x0) / (m1 - m0) ==
                (m0 - y) * (x1 - x0) / (m0 - m1)) by (field; lra).
    rewrite E.
    assert (0 <= (m0 - y) * (x1 - x0) / (m0 - m1)).
    { apply Qle_shift_div_l; [lra|]. rewrite Qmult_0_l.
      apply Qmult_le_0_compat; lra. }
    assert ((m0 - y) * (x1 - x0) / (m0 - m1) <= x1 - x0).
    { apply Qle_shift_div_r; [lra|].
      rewrite (Qmult_comm (x1 - x0)).
      apply Qmult_le_compat_r; lra. }
    lra.
Qed.

Lemma increasing_last xs : forall x0,
  increasing (x0 :: xs) -> x0 <= last xs x0.
Proof.
  induction xs as [|x1 xs IH]; intros x0 I; [simpl; lra|].
  destruct I as [L I]. specialize (IH _ I).
  rewrite <- (last_cons_default x1 xs x0) in IH.
  lra.
Qed.

Lemma crossings_bounds f y xs : forall x0,
  increasing (x0 :: xs) ->
  Forall (fun x => x0 <= x <= last xs x0)
         (Fuzz.crossings x0 (f x0) (combine xs (map f xs)) y).
Proof.
  induction xs as [|x1 xs IH]; intros x0 I; [constructor|].
  destruct I as [L I]. cbn [map combine Fuzz.crossings].
  pose proof (increasing_last _ _ I) as U.
  assert (W : Forall (fun x => x0 <= x <= last (x1 :: xs) x0)
                (Fuzz.crossings x1 (f x1) (combine xs (map f xs)) y)).
  { specialize (IH _ I). rewrite last_cons_default.
    eapply Forall_impl; [|exact IH]. cbn beta. intros; lra. }
  destruct (xorb _ _) eqn:X; [|exact W].
  constructor; [|exact W].
  pose proof (crossing_between _ _ _ _ _ L X).
  rewrite last_cons_default. lra.
Qed.

Lemma interp_universe_fast_bounds f y xs :
  increasing xs ->
  Forall (fun x => hd 0 xs <= x <= last xs 0)
         (Fuzz.interp_universe_fast xs (map f xs) y).
Proof.
  intro I. unfold Fuzz.interp_universe_fast.
  destruct xs as [|x0 xs]; [constructor|].
  cbn [map combine hd]. rewrite last_cons_default.
  apply crossings_bounds, I.
Qed.

Lemma good_combine_map f xs :
  increasing xs -> (forall x, 0 <= f x) -> good (combine xs (map f xs)).
Proof.
  intros I P. induction xs as [|x0 xs IH]; [exact Logic.I|].
  cbn [map combine good]. split; [apply P|].
  destruct xs as [|x1 xs]; [simpl; auto|].
  destruct I as [L I]. split; [exact L|]. apply IH, I.
Qed.

(** The output universe: the integers 0 to 100. *)
Lemma salida_unique : Np.unique universo_salida = universo_salida.
Proof. vm_compute. reflexivity. Qed.

Lemma salida_increasing : increasing universo_salida.
Proof. apply increasingb_ok. vm_compute. reflexivity. Qed.

Lemma salida_hd : hd 0 universo_salida == 0.
Proof. vm_compute. reflexivity. Qed.

Lemma salida_last : last universo_salida 0 == 100.
Proof. vm_compute. reflexivity. Qed.

Lemma salida_length : List.length universo_salida = 101%nat.
Proof. vm_compute. reflexivity. Qed.

Lemma salida_bounds : Forall (fun x => 0 <= x <= 100) universo_salida.
Proof.
  apply Forall_forall. intros x Hx.
  assert (H : forallb (fun x => Qle_bool 0 x && Qle_bool x 100)
                universo_salida = true) by (vm_compute; reflexivity).
  rewrite forallb_forall in H. specialize (H x Hx).
  apply andb_true_iff in H. destruct H as [H1 H2].
  apply Qle_bool_iff in H1. apply Qle_bool_iff in H2. auto.
Qed.

(** The upsampled universe is sorted, has distinct values, stays within
    0 and 100, and keeps every sample of the output universe. *)
Lemma grid_spec p a x :
  increasing (grid p a x) /\
  Forall (fun v => 0 <= v <= 100) (grid p a x) /\
  (forall v, In v universo_salida -> In v (grid p a x)) /\
  (101 <= List.length (grid p a x))%nat.
Proof.
  unfold grid, Np.union1d, Np.unique. rewrite fold_left_app.
  fold (Np.unique universo_salida). rewrite salida_unique.
  rewrite <- salida_length.
  apply inserts_spec.
  - apply salida_increasing.
  - apply salida_bounds.
  - pose proof salida_hd as Hh. pose proof salida_last as Hl.
    repeat (apply Forall_app; split); try constructor.
    all: eapply Forall_impl;
      [|apply interp_universe_fast_bounds, salida_increasing].
    all: cbn beta; intros v Hv; revert Hh Hl Hv.
    all: generalize (hd 0 universo_salida); generalize (last universo_salida 0).
    all: intros; split; lra.
Qed.

Lemma fmax_spec x y :
  x <= Np.fmax x y /\ y <= Np.fmax x y /\
  (Np.fmax x y = x \/ Np.fmax x y = y).
Proof. unfold Np.fmax. qcases; repeat split; auto; lra. Qed.

Lemma fmin_spec x y :
  Np.fmin x y <= x /\ Np.fmin x y <= y /\
  (Np.fmin x y = x \/ Np.fmin x y = y).
Proof. unfold Np.fmin. qcases; repeat split; auto; lra. Qed.

Lemma agg_nonneg p a x v : 0 <= agg p a x v.
Proof.
  unfold agg.
  set (t1 := Np.fmin p (mu_pobre v)).
  set (t2 := Np.fmin a (mu_aceptable v)).
  set (t3 := Np.fmin x (mu_excelente v)).
  pose proof (fmax_spec 0 t1) as (H1 & _ & _).
  pose proof (fmax_spec (Np.fmax 0 t1) t2) as (H2 & _ & _).
  pose proof (fmax_spec (Np.fmax (Np.fmax 0 t1) t2) t3) as (H3 & _ & _).
  lra.
Qed.

(** The peaks of the three output terms are samples of the universe. *)
Lemma peak_pobre :
  In (nth 0 universo_salida 0) universo_salida /\
  mu_pobre (nth 0 universo_salida 0) == 1.
Proof.
  split; [apply nth_In; rewrite salida_length; lia|].
  vm_compute. reflexivity.
Qed.

Lemma peak_aceptable :
  In (nth 60 universo_salida 0) universo_salida /\
  mu_aceptable (nth 60 universo_salida 0) == 1.
Proof.
  split; [apply nth_In; rewrite salida_length; lia|].
  vm_compute. reflexivity.
Qed.

Lemma peak_excelente :
  In (nth 100 universo_salida 0) universo_salida /\
  mu_excelente (nth 100 universo_salida 0) == 1.
Proof.
  split; [apply nth_In; rewrite salida_length; lia|].
  vm_compute. reflexivity.
Qed.

Lemma agg_lower p a x v :
  Np.fmin p (mu_pobre v) <= agg p a x v /\
  Np.fmin a (mu_aceptable v) <= agg p a x v /\
  Np.fmin x (mu_excelente v) <= agg p a x v.
Proof.
  unfold agg.
  set (t1 := Np.fmin p (mu_pobre v)).
  set (t2 := Np.fmin a (mu_aceptable v)).
  set (t3 := Np.fmin x (mu_excelente v)).
  pose proof (fmax_spec 0 t1) as (_ & H1 & _).
  pose proof (fmax_spec (Np.fmax 0 t1) t2) as (H2 & H2' & _).
  pose proof (fmax_spec (Np.fmax (Np.fmax 0 t1) t2) t3) as (H3 & H3' & _).
  repeat split; lra.
Qed.

Lemma fmin_pos c m : 0 < c -> m == 1 -> 0 < Np.fmin c m.
Proof. intros. unfold Np.fmin. qcases; lra. Qed.

Lemma agg_positive p a x :
  0 < p \/ 0 < a \/ 0 < x ->
  Exists (fun y => 0 < y) (map (agg p a x) (grid p a x)).
Proof.
  intro H. destruct (grid_spec p a x) as (_ & _ & K & _).
  apply Exists_exists.
  destruct H as [H|[H|H]].
  - destruct peak_pobre as [I E]. exists (agg p a x (nth 0 universo_salida 0)).
    split; [apply in_map, K, I|].
    pose proof (agg_lower p a x (nth 0 universo_salida 0)) as (L & _ & _).
    pose proof (fmin_pos _ _ H E). lra.
  - destruct peak_aceptable as [I E].
    exists (agg p a x (nth 60 universo_salida 0)).
    split; [apply in_map, K, I|].
    pose proof (agg_lower p a x (nth 60 universo_salida 0)) as (_ & L & _).
    pose proof (fmin_pos _ _ H E). lra.
  - destruct peak_excelente as [I E].
    exists (agg p a x (nth 100 universo_salida 0)).
    split; [apply in_map, K, I|].
    pose proof (agg_lower p a x (nth 100 universo_salida 0)) as (_ & _ & L).
    pose proof (fmin_pos _ _ H E). lra.
Qed.

(** Defuzzification succeeds as soon as one output term has a positive cut,
    and the crisp value lies strictly inside the output universe. *)
Lemma defuzz_inside p x a :
  0 < p \/ 0 < a \/ 0 < x ->
  exists v, defuzz calidad_estetica (cuts p x a) = inr v /\ 0 < v < 100.
Proof.
  intro H. rewrite defuzz_calidad. unfold Fuzz.defuzz.
  pose proof (agg_positive p a x H) as E.
  destruct (grid_spec p a x) as (I & B & _ & L).
  assert (F : Forall (fun y => 0 <= y) (map (agg p a x) (grid p a x))).
  { apply Forall_forall. intros y Hy. apply in_map_iff in Hy.
    destruct Hy as (v & <- & _). apply agg_nonneg. }
  pose proof (sum_pos _ F E) as S.
  qcases; [lra|].
  eexists. split; [reflexivity|].
  apply centroid_inside; auto.
  - now rewrite length_map.
  - apply good_combine_map; [assumption|]. intro. apply agg_nonneg.
  - lia.
Qed.

(** ** Fuzzification of the inputs *)

Lemma entrada_hd : hd 0 universo_entrada == 0.
Proof. vm_compute. reflexivity. Qed.

Lemma entrada_last : last universo_entrada 0 == 10.
Proof. vm_compute. reflexivity. Qed.

Lemma entrada_nonempty : universo_entrada <> [].
Proof. vm_compute. discriminate. Qed.

Lemma entrada_min : Np.amin universo_entrada == 0.
Proof. vm_compute. reflexivity. Qed.

Lemma entrada_max : Np.amax universo_entrada == 10.
Proof. vm_compute. reflexivity. Qed.

Lemma entrada_range v :
  0 <= v <= 10 -> hd 0 universo_entrada <= v <= last universo_entrada 0.
Proof.
  pose proof entrada_hd. pose proof entrada_last.
  generalize dependent (hd 0 universo_entrada).
  generalize dependent (last universo_entrada 0).
  intros. split; lra.
Qed.

Lemma salida_nonempty : universo_salida <> [].
Proof. vm_compute. discriminate. Qed.


(** On the input universe the sampled terms interpolate to the triangles
    they were sampled from. *)
Lemma lo_trimf v : 0 <= v <= 10 -> lo v == Fuzz.trimf_pt 0 0 5 v.
Proof.
  intro B. unfold lo, mf_lo.
  apply (interp_membership_affine _ lo_pieces).
  - apply trimf_pt_proper; reflexivity.
  - apply lo_on_pieces.
  - vm_compute. reflexivity.
  - apply entrada_nonempty.
  - apply entrada_range, B.
Qed.

Lemma mid_trimf v : 0 <= v <= 10 -> mid v == Fuzz.trimf_pt 0 5 10 v.
Proof.
  intro B. unfold mid, mf_mid.
  apply (interp_membership_affine _ mid_pieces).
  - apply trimf_pt_proper; reflexivity.
  - apply mid_on_pieces.
  - vm_compute. reflexivity.
  - apply entrada_nonempty.
  - apply entrada_range, B.
Qed.

Lemma hi_trimf v : 0 <= v <= 10 -> hi v == Fuzz.trimf_pt 5 10 10 v.
Proof.
  intro B. unfold hi, mf_hi.
  apply (interp_membership_affine _ hi_pieces).
  - apply trimf_pt_proper; reflexivity.
  - apply hi_on_pieces.
  - vm_compute. reflexivity.
  - apply entrada_nonempty.
  - apply entrada_range, B.
Qed.

Lemma on_pieces_at f pieces from to m c v :
  on_pieces f pieces -> In (from, to, m, c) pieces ->
  from <= v <= to -> f v == m * v + c.
Proof.
  unfold on_pieces. rewrite Forall_forall. intros P I B.
  apply (P _ I). exact B.
Qed.

(** The three degrees of an input value, in closed form. *)
Lemma degrees v :
  0 <= v <= 10 ->
  (v <= 5 /\ lo v == 1 - (1#5) * v /\ mid v == (1#5) * v /\ hi v == 0) \/
  (5 <= v /\ lo v == 0 /\ mid v == 2 - (1#5) * v /\
   hi v == (1#5) * v - 1).
Proof.
  intro B. rewrite (lo_trimf v B), (mid_trimf v B), (hi_trimf v B).
  destruct (Qlt_le_dec v 5) as [L|L]; [left|right].
  - split; [lra|].
    rewrite (on_pieces_at _ _ 0 5 (-(1#5)) 1 v lo_on_pieces),
            (on_pieces_at _ _ 0 5 (1#5) 0 v mid_on_pieces),
            (on_pieces_at _ _ 0 5 0 0 v hi_on_pieces);
      try (simpl; tauto); try (split; lra); repeat split; lra.
  - split; [lra|].
    rewrite (on_pieces_at _ _ 5 10 0 0 v lo_on_pieces),
            (on_pieces_at _ _ 5 10 (-(1#5)) 2 v mid_on_pieces),
            (on_pieces_at _ _ 5 10 (1#5) (-(1)) v hi_on_pieces);
      try (simpl; tauto); try (split; lra); repeat split; lra.
Qed.

(** Clipping brings any value into the input universe and leaves the
    values of the universe alone. *)
Lemma clip_entrada l ts v :
  let var := mkVar l universo_entrada ts in
  0 <= clip var v <= 10 /\
  (0 <= v <= 10 -> clip var v == v) /\
  (10 <= v -> clip var v = Np.amax universo_entrada) /\
  (v <= 0 -> clip var v == 0).
Proof.
  cbn zeta. unfold clip. cbn [universe].
  pose proof entrada_min. pose proof entrada_max.
  generalize dependent (Np.amin universo_entrada).
  generalize dependent (Np.amax universo_entrada).
  intros M HM m Hm. unfold Np.fmax. qcases; unfold Np.fmin; qcases.
  all: repeat split; intros; try reflexivity; try lra.
Qed.

(** ** The rule base *)

Lemma fuzz_all_calidad n c e :
  fuzz_all (antecedents calidad_ctrl)
    [("nitidez"%string, n); ("contraste"%string, c);
     ("exposicion"%string, e)] = inr (table n c e).
Proof. engine_red. reflexivity. Qed.

(** The activation of each of the eight rules, in the order of the
    source. *)
Lemma activations_calidad n c e :
  map (activation (table n c e)) (rules calidad_ctrl) =
  [Some (Np.fmax (lo n) (lo c) * 1);
   Some (Np.fmin (hi n) (hi c) * 1);
   Some (Np.fmax (lo e) (hi e) * 1);
   Some (Np.fmin (Np.fmin (mid n) (mid c)) (mid e) * 1);
   Some (Np.fmin (Np.fmin (hi n) (mid c)) (mid e) * 1);
   Some (Np.fmax (mid n) (mid c) * 1);
   Some (Np.fmin (lo n) (lo e) * 1);
   Some (Np.fmin (hi c) (hi e) * 1)].
Proof. engine_red. reflexivity. Qed.

(** Rule 1, rule 6 or rule 2 fires on every input of the universe. *)
Lemma rule_1_6_2_fires n c :
  0 <= n <= 10 -> 0 <= c <= 10 ->
  0 < Np.fmax (lo n) (lo c) * 1 \/
  0 < Np.fmax (mid n) (mid c) * 1 \/
  0 < Np.fmin (hi n) (hi c) * 1.
Proof.
  intros Bn Bc.
  pose proof (fmax_spec (lo n) (lo c)) as (L1 & L2 & _).
  pose proof (fmax_spec (mid n) (mid c)) as (M1 & M2 & _).
  pose proof (fmin_spec (hi n) (hi c)) as (_ & _ & H3).
  destruct (degrees n Bn) as [(Rn & Ln & Mn & Hn)|(Rn & Ln & Mn & Hn)];
  destruct (degrees c Bc) as [(Rc & Lc & Mc & Hc)|(Rc & Lc & Mc & Hc)].
  - destruct (Qlt_le_dec n 5); [left|right; left]; lra.
  - destruct (Qlt_le_dec n 5); [left|right; left]; lra.
  - destruct (Qlt_le_dec n 10); [right; left; lra|].
    destruct (Qlt_le_dec c 5); [left|right; left]; lra.
  - destruct (Qlt_le_dec n 10); [right; left; lra|].
    destruct (Qlt_le_dec c 10); [right; left; lra|].
    right; right. destruct H3 as [-> | ->]; lra.
Qed.

Lemma cuts_lower n c e :
  Np.fmax (lo n) (lo c) * 1 <= cut_pobre n c e /\
  Np.fmax (mid n) (mid c) * 1 <= cut_aceptable n c e /\
  Np.fmin (hi n) (hi c) * 1 <= cut_excelente n c e.
Proof.
  unfold cut_pobre, cut_aceptable, cut_excelente.
  repeat match goal with
  | |- context [Np.fmax ?u ?w] =>
      lazymatch goal with
      | H : u <= Np.fmax u w |- _ => fail
      | _ => pose proof (fmax_spec u w) as (? & ? & _)
      end
  end.
  repeat split; lra.
Qed.

Lemma some_cut_positive n c e :
  0 <= n <= 10 -> 0 <= c <= 10 ->
  0 < cut_pobre n c e \/ 0 < cut_aceptable n c e \/ 0 < cut_excelente n c e.
Proof.
  intros Bn Bc. pose proof (cuts_lower n c e) as (P & A & X).
  destruct (rule_1_6_2_fires n c Bn Bc) as [H|[H|H]];
    [left|right; left|right; right]; lra.
Qed.

(** Every run answers a number strictly between 0 and 100. *)
Lemma quality_inside n c e :
  exists v, quality n c e = inr v /\ 0 < v < 100.
Proof.
  unfold quality. apply defuzz_inside.
  apply some_cut_positive.
  - apply (clip_entrada "nitidez" _ n).
  - apply (clip_entrada "contraste" _ c).
Qed.

(** ** The membership functions *)

Lemma trimf_pt_unit a b c x : a <= b <= c -> 0 <= Fuzz.trimf_pt a b c x <= 1.
Proof.
  intros [Hab Hbc]. unfold Fuzz.trimf_pt. cbn beta zeta.
  qcases; try (split; lra).
  all: split; [apply Qle_shift_div_l; lra | apply Qle_shift_div_r; lra].
Qed.

Lemma trapmf_pt_unit a b c d x :
  a <= b -> b <= c -> c <= d -> 0 <= Fuzz.trapmf_pt a b c d x <= 1.
Proof.
  intros Hab Hbc Hcd. unfold Fuzz.trapmf_pt. cbn beta zeta.
  assert (T1 : 0 <= Fuzz.trimf_pt a b b x <= 1)
    by (apply trimf_pt_unit; split; lra).
  assert (T2 : 0 <= Fuzz.trimf_pt c c d x <= 1)
    by (apply trimf_pt_unit; split; lra).
  destruct (Qlt_bool d x); [split; lra|].
  destruct (Qlt_bool x a); [split; lra|].
  destruct (Qle_bool c x); [assumption|].
  destruct (Qle_bool x b); [assumption|]. split; lra.
Qed.

Lemma trimf_pt_checked_ok a b c x :
  Fuzz.trimf_pt_checked a b c x = Some (Fuzz.trimf_pt a b c x).
Proof.
  unfold Fuzz.trimf_pt_checked, Fuzz.trimf_pt, Fuzz.checked_div.
  cbn beta zeta.
  destruct (Qeq_bool a b) eqn:Eab; destruct (Qeq_bool b c) eqn:Ebc;
    cbn [negb andb].
  - destruct (Qeq_bool x b); reflexivity.
  - apply Qeq_bool_false in Ebc.
    assert (E : Qeq_bool (c - b) 0 = false).
    { apply Qeq_bool_false. intro. apply Ebc. lra. }
    rewrite E. destruct (Qlt_bool b x && Qlt_bool x c);
      destruct (Qeq_bool x b); reflexivity.
  - apply Qeq_bool_false in Eab.
    assert (E : Qeq_bool (b - a) 0 = false).
    { apply Qeq_bool_false. intro. apply Eab. lra. }
    rewrite E. destruct (Qlt_bool a x && Qlt_bool x b);
      destruct (Qeq_bool x b); reflexivity.
  - apply Qeq_bool_false in Eab. apply Qeq_bool_false in Ebc.
    assert (E : Qeq_bool (b - a) 0 = false).
    { apply Qeq_bool_false. intro. apply Eab. lra. }
    assert (E' : Qeq_bool (c - b) 0 = false).
    { apply Qeq_bool_false. intro. apply Ebc. lra. }
    rewrite E, E'. destruct (Qlt_bool a x && Qlt_bool x b);
      destruct (Qlt_bool b x && Qlt_bool x c);
      destruct (Qeq_bool x b); reflexivity.
Qed.

(** A sampled term interpolates into the unit interval everywhere: the
    function it was sampled from inside the universe, zero outside. *)
Lemma interp_membership_unit f pieces xs v :
  Proper (Qeq ==> Qeq) f -> on_pieces f pieces ->
  seg_check pieces xs = true -> xs <> [] ->
  (forall u, 0 <= f u <= 1) ->
  0 <= Fuzz.interp_membership xs (map f xs) v <= 1.
Proof.
  intros Pf P C N U. destruct xs as [|x0 xs]; [congruence|].
  pose proof (seg_check_ok f pieces _ P C) as S.
  unfold Fuzz.interp_membership.
  destruct (Qlt_le_dec v x0) as [L|L].
  - rewrite (interp_left f x0 xs v 0 0 S L). split; lra.
  - destruct (Qlt_le_dec (last xs x0) v) as [R|R].
    + rewrite (interp_right f x0 xs v 0 0 R). split; lra.
    + rewrite (interp_affine f Pf x0 xs v 0 0 S); [apply U|]. split; lra.
Qed.

Lemma system_degrees_unit v :
  Forall (fun d => 0 <= d <= 1)
    [lo v; mid v; hi v; mu_pobre v; mu_aceptable v; mu_excelente v].
Proof.
  repeat apply Forall_cons; [| | | | | |constructor].
  - apply (interp_membership_unit (Fuzz.trimf_pt 0 0 5) lo_pieces);
      [apply trimf_pt_proper; reflexivity | apply lo_on_pieces
      | vm_compute; reflexivity | apply entrada_nonempty |].
    intro. apply trimf_pt_unit. split; lra.
  - apply (interp_membership_unit (Fuzz.trimf_pt 0 5 10) mid_pieces);
      [apply trimf_pt_proper; reflexivity | apply mid_on_pieces
      | vm_compute; reflexivity | apply entrada_nonempty |].
    intro. apply trimf_pt_unit. split; lra.
  - apply (interp_membership_unit (Fuzz.trimf_pt 5 10 10) hi_pieces);
      [apply trimf_pt_proper; reflexivity | apply hi_on_pieces
      | vm_compute; reflexivity | apply entrada_nonempty |].
    intro. apply trimf_pt_unit. split; lra.
  - apply (interp_membership_unit (Fuzz.trapmf_pt 0 0 30 50) pobre_pieces);
      [apply trapmf_pt_proper; reflexivity | apply pobre_on_pieces
      | vm_compute; reflexivity | apply salida_nonempty |].
    intro. apply trapmf_pt_unit; lra.
  - apply (interp_membership_unit (Fuzz.trimf_pt 30 60 90) aceptable_pieces);
      [apply trimf_pt_proper; reflexivity | apply aceptable_on_pieces
      | vm_compute; reflexivity | apply salida_nonempty |].
    intro. apply trimf_pt_unit. split; lra.
  - apply (interp_membership_unit (Fuzz.trapmf_pt 70 90 100 100)
             excelente_pieces);
      [apply trapmf_pt_proper; reflexivity | apply excelente_on_pieces
      | vm_compute; reflexivity | apply salida_nonempty |].
    intro. apply trapmf_pt_unit; lra.
Qed.

(** ** The claims *)

Lemma activations_eq n c e :
  activations n c e =
  inr (map (activation (table (clip nitidez n) (clip contraste c)
                              (clip exposicion e)))
           (rules calidad_ctrl)).
Proof.
  unfold activations, inputs_of. now rewrite fuzz_all_calidad.
Qed.

Lemma clip_range var v :
  universe var = universo_entrada -> 0 <= clip var v <= 10.
Proof.
  intro U. destruct var as [l u ts]. change (u = universo_entrada) in U.
  subst u. apply (clip_entrada l ts v).
Qed.



(** C1. For every input triple of [0,10]^3 and every state the simulator
    can be in, [evaluate_quality] raises nothing and returns a quality
    between 0 and 100; and one of the eight rules at least has a strictly
    positive activation, so the all-zero case does not occur. *)
Theorem evaluate_total_in_bounds s n c e :
  reachable s -> 0 <= n <= 10 -> 0 <= c <= 10 -> 0 <= e <= 10 ->
  (exists v, fst (evaluate_quality n c e s) = inr v /\ 0 <= v <= 100) /\
  (exists rs, activations n c e = inr rs /\
     Exists (fun r => exists a, r = Some a /\ 0 < a) rs).
Proof.
  intros R Bn Bc Be. split.
  - rewrite (evaluate_quality_reachable _ _ _ _ R).
    destruct (quality_inside n c e) as (v & E & B).
    exists v. split; [assumption|]. split; lra.
  - rewrite activations_eq. eexists. split; [reflexivity|].
    rewrite activations_calidad.
    assert (Cn : 0 <= clip nitidez n <= 10) by (now apply clip_range).
    assert (Cc : 0 <= clip contraste c <= 10) by (now apply clip_range).
    destruct (rule_1_6_2_fires _ _ Cn Cc) as [H|[H|H]].
    + apply Exists_cons_hd. eauto.
    + do 5 apply Exists_cons_tl. apply Exists_cons_hd. eauto.
    + apply Exists_cons_tl. apply Exists_cons_hd. eauto.
Qed.

Lemma evaluate_total_in_bounds_witness :
  reachable calidad_simulador /\ 0 <= 5 <= 10 /\
  ((exists v, fst (evaluate_quality 5 5 5 calidad_simulador) = inr v /\
              0 <= v <= 100) /\
   (exists rs, activations 5 5 5 = inr rs /\
      Exists (fun r => exists a, r = Some a /\ 0 < a) rs)).
Proof.
  assert (R : reachable calidad_simulador)
    by (apply reach_init, initialize_ok).
  assert (B : 0 <= 5 <= 10) by (split; discriminate).
  split; [exact R|]. split; [exact B|].
  exact (evaluate_total_in_bounds calidad_simulador 5 5 5 R B B B).
Defined.

(** C10. The quality never attains the bounds of the output universe: for
    every input triple of [0,10]^3 it is strictly between 0 and 100. *)
Theorem evaluate_strictly_inside s n c e :
  reachable s -> 0 <= n <= 10 -> 0 <= c <= 10 -> 0 <= e <= 10 ->
  exists v, fst (evaluate_quality n c e s) = inr v /\ 0 < v < 100.
Proof.
  intros R _ _ _. rewrite (evaluate_quality_reachable _ _ _ _ R).
  apply quality_inside.
Qed.

Lemma evaluate_strictly_inside_witness :
  reachable calidad_simulador /\ 0 <= 0 <= 10 /\ 0 <= 10 <= 10 /\
  exists v, fst (evaluate_quality 0 10 10 calidad_simulador) = inr v /\
            0 < v < 100.
Proof.
  assert (R : reachable calidad_simulador)
    by (apply reach_init, initialize_ok).
  assert (B0 : 0 <= 0 <= 10) by (split; discriminate).
  assert (B1 : 0 <= 10 <= 10) by (split; discriminate).
  split; [exact R|]. split; [exact B0|]. split; [exact B1|].
  exact (evaluate_strictly_inside calidad_simulador 0 10 10 R B0 B1 B1).
Defined.

(** C7. Two calls in a row with the same inputs on the same simulator
    return the same thing: nothing the first call leaves behind changes the
    answer of the second. *)
Theorem evaluate_twice_same s n c e :
  reachable s ->
  fst (evaluate_quality n c e (snd (evaluate_quality n c e s))) =
  fst (evaluate_quality n c e s).
Proof.
  intro R.
  rewrite (evaluate_quality_reachable _ _ _ _ (reach_eval s n c e R)).
  now rewrite (evaluate_quality_reachable _ _ _ _ R).
Qed.

Lemma evaluate_twice_same_witness :
  reachable calidad_simulador /\
  fst (evaluate_quality 7 3 5
         (snd (evaluate_quality 7 3 5 calidad_simulador))) =
  fst (evaluate_quality 7 3 5 calidad_simulador).
Proof.
  assert (R : reachable calidad_simulador)
    by (apply reach_init, initialize_ok).
  split; [exact R|].
  exact (evaluate_twice_same calidad_simulador 7 3 5 R).
Defined.




(** C3. The inputs (10, 10, 5) give a quality above 70, the inputs
    (0, 0, 5) a quality below 50. *)
Theorem extremes s :
  reachable s ->
  (exists v, fst (evaluate_quality 10 10 5 s) = inr v /\ 70 < v) /\
  (exists v, fst (evaluate_quality 0 0 5 s) = inr v /\ v < 50).
Proof.
  intro R. rewrite !(evaluate_quality_reachable _ _ _ _ R). split.
  - eexists. split; [vm_compute; reflexivity|]. vm_compute. reflexivity.
  - eexists. split; [vm_compute; reflexivity|]. vm_compute. reflexivity.
Qed.

Lemma extremes_witness :
  reachable calidad_simulador /\
  ((exists v, fst (evaluate_quality 10 10 5 calidad_simulador) = inr v /\
              70 < v) /\
   (exists v, fst (evaluate_quality 0 0 5 calidad_simulador) = inr v /\
              v < 50)).
Proof.
  assert (R : reachable calidad_simulador)
    by (apply reach_init, initialize_ok).
  split; [exact R|]. exact (extremes calidad_simulador R).
Defined.

(** C5. The inputs (5, 5, 5) give a quality inside the band [30, 90] and
    closer to 60, the peak of [aceptable], than to either end of the
    band. *)
Theorem boundary_centering s :
  reachable s ->
  exists v, fst (evaluate_quality 5 5 5 s) = inr v /\
    30 <= v <= 90 /\
    Qabs (v - 60) < Qabs (v - 30) /\ Qabs (v - 60) < Qabs (v - 90).
Proof.
  intro R. rewrite (evaluate_quality_reachable _ _ _ _ R).
  eexists. split; [vm_compute; reflexivity|].
  repeat split; vm_compute; try reflexivity; discriminate.
Qed.

Lemma boundary_centering_witness :
  reachable calidad_simulador /\
  exists v, fst (evaluate_quality 5 5 5 calidad_simulador) = inr v /\
    30 <= v <= 90 /\
    Qabs (v - 60) < Qabs (v - 30) /\ Qabs (v - 60) < Qabs (v - 90).
Proof.
  assert (R : reachable calidad_simulador)
    by (apply reach_init, initialize_ok).
  split; [exact R|]. exact (boundary_centering calidad_simulador R).
Defined.



(** C6 as stated fails: it has rule 8 fire on both inputs, but on the dark
    one, (8, 8, 0), the term [brillante] has degree 0 and rule 8, contrast
    [alto] and exposure [brillante], has activation 0. *)
Lemma rule_8_silent_on_dark :
  ~ (exists rs a, activations 8 8 0 = inr rs /\
       nth_error rs 7 = Some (Some a) /\ 0 < a).
Proof.
  intros (rs & a & E & N & P).
  assert (K : match activations 8 8 0 with
              | inr rs' =>
                  match nth_error rs' 7 with
                  | Some (Some a') => a' == 0
                  | _ => False
                  end
              | inl _ => False
              end) by (vm_compute; reflexivity).
  rewrite E, N in K. lra.
Qed.

(** C8, as the code has it.  A triangular function with [a <= b <= c] has
    its degree in [0,1]; it is 0 for [x < a] and for [x > c], and also at
    [x = a] when the rise has a positive width and at [x = c] when the fall
    has one; it is 1 at the peak [x = b], also when [a = b] or [b = c]; it
    rises linearly over [a,b] when [a < b] and falls linearly over [b,c]
    when [b < c]; no division by zero occurs (the checked computation
    succeeds with the same value).  The trapezoids have their degrees in
    [0,1], and so have the six sampled terms of the engine wherever they
    are evaluated. *)
Theorem membership_contract a b c x :
  a <= b <= c ->
  0 <= Fuzz.trimf_pt a b c x <= 1 /\
  (x < a \/ c < x -> Fuzz.trimf_pt a b c x == 0) /\
  (a < b -> x == a -> Fuzz.trimf_pt a b c x == 0) /\
  (b < c -> x == c -> Fuzz.trimf_pt a b c x == 0) /\
  (x == b -> Fuzz.trimf_pt a b c x == 1) /\
  (a < b -> a <= x <= b -> Fuzz.trimf_pt a b c x == (x - a) / (b - a)) /\
  (b < c -> b <= x <= c -> Fuzz.trimf_pt a b c x == (c - x) / (c - b)) /\
  Fuzz.trimf_pt_checked a b c x = Some (Fuzz.trimf_pt a b c x) /\
  (forall d, c <= d -> 0 <= Fuzz.trapmf_pt a b c d x <= 1) /\
  Forall (fun d => 0 <= d <= 1)
    [lo x; mid x; hi x; mu_pobre x; mu_aceptable x; mu_excelente x].
Proof.
  intros [Hab Hbc].
  split; [apply trimf_pt_unit; split; assumption|].
  split; [|split; [|split; [|split; [|split; [|split]]]]].
  - intros H. unfold Fuzz.trimf_pt. cbn beta zeta.
    qcases; try reflexivity; exfalso; lra.
  - intros L E. unfold Fuzz.trimf_pt. cbn beta zeta.
    qcases; try reflexivity; exfalso; lra.
  - intros L E. unfold Fuzz.trimf_pt. cbn beta zeta.
    qcases; try reflexivity; exfalso; lra.
  - intros E. unfold Fuzz.trimf_pt. cbn beta zeta.
    qcases; try reflexivity; exfalso; lra.
  - intros L B. unfold Fuzz.trimf_pt. cbn beta zeta.
    qcases; try reflexivity; try (exfalso; lra).
    all: first [ assert (Z : x == b) by lra | assert (Z : x == a) by lra ];
      rewrite Z; field; lra.
  - intros L B. unfold Fuzz.trimf_pt. cbn beta zeta.
    qcases; try reflexivity; try (exfalso; lra).
    all: first [ assert (Z : x == b) by lra | assert (Z : x == c) by lra ];
      rewrite Z; field; lra.
  - split; [apply trimf_pt_checked_ok|].
    split; [|apply system_degrees_unit].
    intros d Hd. apply trapmf_pt_unit; assumption.
Qed.

Lemma membership_contract_witness :
  0 <= 0 <= 5 /\ Fuzz.trimf_pt 0 0 5 0 == 1.
Proof.
  assert (H : 0 <= 0 <= 5) by (split; discriminate).
  split; [exact H|].
  exact (proj1 (proj2 (proj2 (proj2 (proj2
           (membership_contract 0 0 5 0 H))))) (Qeq_refl 0)).
Defined.

(** C8 as stated fails: it makes the degree 0 for every [x <= a], but the
    triangle (0, 0, 5) of the terms [baja], [bajo] and [oscura] has degree 1
    at [x = 0 = a]. *)
Lemma membership_zero_at_left_foot_fails :
  ~ (forall a b c x, a <= b <= c -> x <= a \/ c <= x ->
       Fuzz.trimf_pt a b c x == 0).
Proof.
  intro H.
  assert (B : 0 <= 0 <= 5) by (split; discriminate).
  assert (L : 0 <= 0 \/ 5 <= 0) by (left; discriminate).
  specialize (H 0 0 5 0 B L). vm_compute in H. discriminate.
Qed.

(** ** The endpoint *)

(** Every response the endpoint builds on a failure carries the default
    quality 50; an exception leaves the view only from the clean-up of the
    [finally] block. *)
Lemma error_responses_carry_default env sim files :
  match fst (App.upload_and_evaluate_fuzzy_api env sim files) with
  | App.Response body status =>
      status = 200%nat \/ App.calidad_of (App.Response body status)
                          = Some (App.JNum 50)
  | App.Raised e =>
      exists file, Ctrl.dict_get files "imageFile" = Some file /\
        App.os_remove env
          (App.path_join App.UPLOAD_FOLDER
             (App.secure_filename env (App.filename file))) = Some e
  | App.ReturnedNone => False
  end.
Proof.
  unfold App.upload_and_evaluate_fuzzy_api.
  destruct sim as [sim|]; [|right; reflexivity].
  destruct (Ctrl.dict_get files "imageFile") as [file|]; [|right; reflexivity].
  destruct (String.eqb (App.filename file) "") eqn:E; [right; reflexivity|].
  cbn [negb].
  destruct (App.try_block _ _ _ _) as [[e|body] sim'].
  - destruct (App.path_exists env _).
    + destruct (App.os_remove env _) as [e'|] eqn:Rm.
      * cbn [fst]. exists file. auto.
      * right. reflexivity.
    + right. reflexivity.
  - destruct (App.path_exists env _).
    + destruct (App.os_remove env _) as [e'|] eqn:Rm.
      * cbn [fst]. exists file. auto.
      * left. reflexivity.
    + left. reflexivity.
Qed.

(** C9, where the code departs from it.  With the engine loaded, the upload
    named ["..."] makes [file.save] raise; the handler prepares the answer
    with the default quality, but the clean-up of the [finally] block raises
    in its turn and the exception leaves the view: no JSON response, no
    ["calidad"] field. *)
Theorem cleanup_failure_loses_default :
  fst (App.upload_and_evaluate_fuzzy_api dotted_env App.CALIDAD_SIMULADOR
         [("imageFile"%string, dotted_file)]) = App.Raised is_a_directory /\
  App.calidad_of
    (fst (App.upload_and_evaluate_fuzzy_api dotted_env App.CALIDAD_SIMULADOR
            [("imageFile"%string, dotted_file)])) = None.
Proof. split; reflexivity. Qed.

(** ** Sums over the segments of a grid *)









(** ** Exact sums for piecewise-linear sets *)




#[global] Instance clamp_proper : Proper (Qeq ==> Qeq ==> Qeq ==> Qeq) clamp.
Proof. intros a a' Ha b b' Hb c c' Hc. unfold clamp. now rewrite Ha, Hb, Hc. Qed.

#[global] Instance T_area_proper : Proper (Qeq ==> Qeq ==> Qeq ==> Qeq) T_area.
Proof. intros a a' Ha b b' Hb c c' Hc. unfold T_area. now rewrite Ha, Hb, Hc. Qed.

#[global] Instance T_moment_proper :
  Proper (Qeq ==> Qeq ==> Qeq ==> Qeq) T_moment.
Proof.
  intros a a' Ha b b' Hb c c' Hc. unfold T_moment. now rewrite Ha, Hb, Hc.
Qed.

#[global] Instance seg_area_proper :
  Proper (Qeq ==> Qeq ==> Qeq ==> Qeq ==> Qeq) seg_area.
Proof.
  intros a a' Ha b b' Hb c c' Hc d d' Hd. unfold seg_area.
  now rewrite Ha, Hb, Hc, Hd.
Qed.

#[global] Instance seg_moment_proper :
  Proper (Qeq ==> Qeq ==> Qeq ==> Qeq ==> Qeq) seg_moment.
Proof.
  intros a a' Ha b b' Hb c c' Hc d d' Hd. unfold seg_moment.
  now rewrite Ha, Hb, Hc, Hd.
Qed.



Section Exact.
Variable T : Q -> Q -> Q -> Q.
Variable seg : Q -> Q -> Q -> Q -> Q.
Hypothesis T_proper : Proper (Qeq ==> Qeq ==> Qeq ==> Qeq) T.
Hypothesis seg_proper : Proper (Qeq ==> Qeq ==> Qeq ==> Qeq ==> Qeq) seg.
Hypothesis T_seg :
  forall m c u w, T m c w - T m c u == seg u (m * u + c) w (m * w + c).




Variable f : Q -> Q.



End Exact.

(** ** Where the terms meet their cuts *)

#[global] Instance above_proper : Proper (Qeq ==> Qeq ==> eq) Fuzz.above.
Proof.
  intros y y' Hy m m' Hm. unfold Fuzz.above.
  replace (Qeq_bool y 0) with (Qeq_bool y' 0) by now rewrite Hy.
  replace (Qlt_bool y m) with (Qlt_bool y' m') by now rewrite Hy, Hm.
  replace (Qle_bool y m) with (Qle_bool y' m') by now rewrite Hy, Hm.
  reflexivity.
Qed.








(** ** The output set as a function of the cuts *)

Lemma fmax_Qmax x y : Np.fmax x y == Qmax x y.
Proof.
  unfold Np.fmax. qcases.
  - symmetry. apply Q.max_r. assumption.
  - symmetry. apply Q.max_l. lra.
Qed.

Lemma fmin_Qmin x y : Np.fmin x y == Qmin x y.
Proof.
  unfold Np.fmin. qcases.
  - symmetry. apply Q.min_l. assumption.
  - symmetry. apply Q.min_r. lra.
Qed.


















(** ** Adding a sample where the set is already linear *)



(** ** Comparing two sets on one grid *)




(** ** The sums of a run *)










(** ** The aggregated set on the two sides *)



Ltac minmax :=
  repeat match goal with
  | |- context [Qmin ?a ?b] =>
      lazymatch goal with
      | _ : Qmin a b == _ |- _ => fail
      | _ => destruct (Q.min_spec a b) as [[? ?]|[? ?]]
      end
  | |- context [Qmax ?a ?b] =>
      lazymatch goal with
      | _ : Qmax a b == _ |- _ => fail
      | _ => destruct (Q.max_spec a b) as [[? ?]|[? ?]]
      end
  end.









(** ** Small cuts: the inserted sample is on a side of the triangle *)












(** ** Order of the centroids within a side *)










(** ** The cuts when contrast and exposure sit at the midpoint *)




Lemma clip_input l ts v :
  let var := mkVar l universo_entrada ts in
  0 <= clip var v <= 10 /\ (0 <= v <= 10 -> clip var v == v).
Proof.
  intro var. destruct (clip_entrada l ts v) as (H1 & H2 & _).
  split; assumption.
Qed.

Lemma clip_inputs n c e :
  (0 <= clip nitidez n <= 10 /\ (0 <= n <= 10 -> clip nitidez n == n)) /\
  (0 <= clip contraste c <= 10 /\ (0 <= c <= 10 -> clip contraste c == c)) /\
  (0 <= clip exposicion e <= 10 /\
   (0 <= e <= 10 -> clip exposicion e == e)).
Proof.
  split; [|split].
  - exact (clip_input "nitidez" _ n).
  - exact (clip_input "contraste" _ c).
  - exact (clip_input "exposicion" _ e).
Qed.



(** ** Equal numbers give equal answers

    A rational has many representations; the engine's answer depends on
    the numbers only. *)

#[global] Instance fmax_proper : Proper (Qeq ==> Qeq ==> Qeq) Np.fmax.
Proof.
  intros x x' Hx y y' Hy. rewrite !fmax_Qmax. now rewrite Hx, Hy.
Qed.

#[global] Instance fmin_proper : Proper (Qeq ==> Qeq ==> Qeq) Np.fmin.
Proof.
  intros x x' Hx y y' Hy. rewrite !fmin_Qmin. now rewrite Hx, Hy.
Qed.

Lemma interp_scan_proper rest : forall x x' x0 y0,
  x == x' -> Np.interp_scan x x0 y0 rest == Np.interp_scan x' x0 y0 rest.
Proof.
  induction rest as [|[x1 y1] rest IH]; intros x x' x0 y0 E;
    cbn [Np.interp_scan]; [reflexivity|].
  replace (Qlt_bool x' x1) with (Qlt_bool x x1) by now rewrite E.
  replace (Qeq_bool x0 x') with (Qeq_bool x0 x).
  2:{ destruct (Qeq_bool x0 x) eqn:A; destruct (Qeq_bool x0 x') eqn:B;
      try reflexivity.
      - apply Qeq_bool_iff in A. apply Qeq_bool_false in B.
        exfalso. apply B. now rewrite <- E.
      - apply Qeq_bool_iff in B. apply Qeq_bool_false in A.
        exfalso. apply A. now rewrite E. }
  destruct (Qlt_bool x x1); [|now apply IH].
  destruct (Qeq_bool x0 x); [reflexivity|]. now rewrite E.
Qed.

#[global] Instance interp_membership_proper xs mf :
  Proper (Qeq ==> Qeq) (Fuzz.interp_membership xs mf).
Proof.
  intros x x' E. unfold Fuzz.interp_membership, Np.interp.
  destruct (combine xs mf) as [|[x0 y0] rest]; [reflexivity|].
  replace (Qlt_bool (last xs 0) x') with (Qlt_bool (last xs 0) x)
    by now rewrite E.
  replace (Qlt_bool x' x0) with (Qlt_bool x x0) by now rewrite E.
  destruct (Qlt_bool (last xs 0) x); [reflexivity|].
  destruct (Qlt_bool x x0); [reflexivity|].
  now apply interp_scan_proper.
Qed.

#[global] Instance agg_proper :
  Proper (Qeq ==> Qeq ==> Qeq ==> Qeq ==> Qeq) agg.
Proof.
  intros p p' Hp a a' Ha x x' Hx v v' Hv. unfold agg.
  unfold mu_pobre, mu_aceptable, mu_excelente.
  now rewrite Hp, Ha, Hx, Hv.
Qed.

Lemma same_refl l : same l l.
Proof. induction l; constructor; [reflexivity|assumption]. Qed.

Lemma same_app l1 l1' l2 l2' :
  same l1 l1' -> same l2 l2' -> same (l1 ++ l2) (l1' ++ l2').
Proof. apply Forall2_app. Qed.

Lemma crossings_same rest : forall x0 m0 y y',
  y == y' ->
  same (Fuzz.crossings x0 m0 rest y) (Fuzz.crossings x0 m0 rest y').
Proof.
  induction rest as [|[x1 m1] rest IH]; intros x0 m0 y y' E;
    cbn [Fuzz.crossings]; [constructor|].
  replace (Fuzz.above y' m0) with (Fuzz.above y m0) by now rewrite E.
  replace (Fuzz.above y' m1) with (Fuzz.above y m1) by now rewrite E.
  destruct (xorb _ _); [constructor|]; try now apply IH.
  now rewrite E.
Qed.

Lemma interp_universe_fast_same xs mf y y' :
  y == y' ->
  same (Fuzz.interp_universe_fast xs mf y)
       (Fuzz.interp_universe_fast xs mf y').
Proof.
  intro E. unfold Fuzz.interp_universe_fast.
  destruct (combine xs mf) as [|[x0 m0] rest]; [constructor|].
  now apply crossings_same.
Qed.

Lemma insert_same v v' l l' :
  v == v' -> same l l' -> same (Np.insert v l) (Np.insert v' l').
Proof.
  intros E S. induction S as [|h h' t t' Hh St IH]; cbn [Np.insert].
  - constructor; [assumption|constructor].
  - replace (v' ?= h') with (v ?= h) by now rewrite E, Hh.
    destruct (v ?= h).
    + constructor; assumption.
    + constructor; [assumption|]. constructor; assumption.
    + constructor; assumption.
Qed.

Lemma fold_insert_same ar ar' :
  same ar ar' -> forall acc acc', same acc acc' ->
  same (fold_left (fun a v => Np.insert v a) ar acc)
       (fold_left (fun a v => Np.insert v a) ar' acc').
Proof.
  induction 1 as [|h h' t t' Hh St IH]; intros acc acc' A; simpl;
    [assumption|].
  apply IH. now apply insert_same.
Qed.

Lemma union1d_same a1 a2 a2' :
  same a2 a2' -> same (Np.union1d a1 a2) (Np.union1d a1 a2').
Proof.
  intro S. unfold Np.union1d, Np.unique.
  apply fold_insert_same; [|constructor].
  apply same_app; [apply same_refl|assumption].
Qed.

Lemma grid_same p p' a a' x x' :
  p == p' -> a == a' -> x == x' -> same (grid p a x) (grid p' a' x').
Proof.
  intros Hp Ha Hx. unfold grid. apply union1d_same.
  repeat apply same_app; try now apply interp_universe_fast_same.
  constructor.
Qed.

Lemma map_agg_same p p' a a' x x' G G' :
  p == p' -> a == a' -> x == x' -> same G G' ->
  same (map (agg p a x) G) (map (agg p' a' x') G').
Proof.
  intros Hp Ha Hx S. induction S; simpl; constructor; [|assumption].
  now apply agg_proper.
Qed.

Lemma sum_same l l' : same l l' -> Np.sum l == Np.sum l'.
Proof.
  unfold Np.sum. intro S.
  induction S as [|h h' t t' Hh St IH]; simpl; [reflexivity|].
  rewrite (sum_fold t), (sum_fold t'), IH, Hh. reflexivity.
Qed.

Lemma Qeq_bool_same x x' y y' :
  x == x' -> y == y' -> Qeq_bool x y = Qeq_bool x' y'.
Proof.
  intros Hx Hy.
  destruct (Qeq_bool x y) eqn:A; destruct (Qeq_bool x' y') eqn:B;
    try reflexivity.
  - apply Qeq_bool_iff in A. apply Qeq_bool_false in B.
    exfalso. apply B. now rewrite <- Hx, <- Hy.
  - apply Qeq_bool_iff in B. apply Qeq_bool_false in A.
    exfalso. apply A. now rewrite Hx, Hy.
Qed.

Lemma figure_same x1 x1' y1 y1' x2 x2' y2 y2' :
  x1 == x1' -> y1 == y1' -> x2 == x2' -> y2 == y2' ->
  same_figure (Fuzz.figure x1 y1 x2 y2) (Fuzz.figure x1' y1' x2' y2').
Proof.
  intros H1 H2 H3 H4. unfold Fuzz.figure.
  rewrite <- (Qeq_bool_same y1 y1' y2 y2' H2 H4).
  rewrite <- (Qeq_bool_same y2 y2' 0 0 H4 (Qeq_refl 0)).
  rewrite <- (Qeq_bool_same y1 y1' 0 0 H2 (Qeq_refl 0)).
  rewrite <- (Qeq_bool_same x1 x1' x2 x2' H1 H3).
  destruct (Qeq_bool y1 y2), (Qeq_bool y2 0), (Qeq_bool y1 0),
    (Qeq_bool x1 x2); cbn; try exact I;
    split; rewrite ?H1, ?H2, ?H3, ?H4; reflexivity.
Qed.

Lemma centroid_loop_same rest rest' :
  Forall2 (fun u u' => fst u == fst u' /\ snd u == snd u') rest rest' ->
  forall x1 x1' y1 y1' m m' a a',
  x1 == x1' -> y1 == y1' -> m == m' -> a == a' ->
  fst (Fuzz.centroid_loop x1 y1 rest m a) ==
    fst (Fuzz.centroid_loop x1' y1' rest' m' a') /\
  snd (Fuzz.centroid_loop x1 y1 rest m a) ==
    snd (Fuzz.centroid_loop x1' y1' rest' m' a').
Proof.
  induction 1 as [|[x2 y2] [x2' y2'] t t' [Hx Hy] St IH];
    intros x1 x1' y1 y1' m m' a a' H1 H2 Hm Ha; cbn [Fuzz.centroid_loop].
  - split; assumption.
  - cbn [fst snd] in Hx, Hy.
    pose proof (figure_same _ _ _ _ _ _ _ _ H1 H2 Hx Hy) as F.
    destruct (Fuzz.figure x1 y1 x2 y2) as [[mo ar]|];
      destruct (Fuzz.figure x1' y1' x2' y2') as [[mo' ar']|];
      cbn in F; try contradiction.
    + destruct F as [Fm Fa]. apply IH; try assumption.
      * now rewrite Hm, Fm, Fa.
      * now rewrite Ha, Fa.
    + apply IH; assumption.
Qed.

Lemma combine_same xs xs' ys ys' :
  same xs xs' -> same ys ys' ->
  Forall2 (fun u u' => fst u == fst u' /\ snd u == snd u')
          (combine xs ys) (combine xs' ys').
Proof.
  intros S. revert ys ys'.
  induction S as [|h h' t t' Hh St IH]; intros ys ys' T; simpl;
    [constructor|].
  destruct T; constructor; [split; assumption|]. now apply IH.
Qed.

Lemma centroid_same xs xs' ys ys' :
  same xs xs' -> same ys ys' ->
  Fuzz.centroid xs ys == Fuzz.centroid xs' ys'.
Proof.
  intros S T. unfold Fuzz.centroid.
  pose proof (combine_same _ _ _ _ S T) as C.
  destruct C as [|[x0 y0] [x0' y0'] r r' [Hx Hy] Cr]; [reflexivity|].
  cbn [fst snd] in Hx, Hy.
  destruct Cr as [|u u' r r' Hu Cr].
  - now rewrite Hx, Hy.
  - destruct (centroid_loop_same (u :: r) (u' :: r')
                (Forall2_cons _ _ Hu Cr) x0 x0' y0 y0' 0 0 0 0 Hx Hy
                (Qeq_refl 0) (Qeq_refl 0)) as [Em Ea].
    destruct (Fuzz.centroid_loop x0 y0 (u :: r) 0 0) as [m a].
    destruct (Fuzz.centroid_loop x0' y0' (u' :: r') 0 0) as [m' a'].
    cbn [fst snd] in Em, Ea. now rewrite Em, Ea.
Qed.

(** The answers for equal cuts are equal. *)
Lemma defuzz_cuts_same p p' x x' a a' :
  p == p' -> x == x' -> a == a' ->
  match defuzz calidad_estetica (cuts p x a),
        defuzz calidad_estetica (cuts p' x' a') with
  | inr v, inr v' => v == v'
  | inl _, inl _ => True
  | _, _ => False
  end.
Proof.
  intros Hp Hx Ha. rewrite !defuzz_calidad. unfold Fuzz.defuzz.
  pose proof (grid_same p p' a a' x x' Hp Ha Hx) as G.
  pose proof (map_agg_same p p' a a' x x' _ _ Hp Ha Hx G) as Mf.
  rewrite (Qeq_bool_same _ _ 0 0 (sum_same _ _ Mf) (Qeq_refl 0)).
  destruct (Qeq_bool _ 0); [exact I|].
  now apply centroid_same.
Qed.

(** ** What the rule base comes to *)

Lemma cut_pobre_eq n c e :
  cut_pobre n c e == Qmax (Qmax (lo n) (lo c)) (Qmax (lo e) (hi e)).
Proof.
  unfold cut_pobre. rewrite !fmax_Qmax, !fmin_Qmin.
  assert (D7 : Qmin (lo n) (lo e) <= Qmax (lo e) (hi e)) by (minmax; lra).
  assert (D8 : Qmin (hi c) (hi e) <= Qmax (lo e) (hi e)) by (minmax; lra).
  set (r7 := Qmin (lo n) (lo e)) in *. set (r8 := Qmin (hi c) (hi e)) in *.
  set (r3 := Qmax (lo e) (hi e)) in *. set (r1 := Qmax (lo n) (lo c)) in *.
  clearbody r1 r3 r7 r8. minmax; lra.
Qed.

Lemma cut_aceptable_eq n c e :
  cut_aceptable n c e == Qmax (mid n) (mid c).
Proof.
  unfold cut_aceptable. rewrite !fmax_Qmax, !fmin_Qmin.
  assert (D4 : Qmin (Qmin (mid n) (mid c)) (mid e) <= Qmax (mid n) (mid c))
    by (minmax; lra).
  set (r4 := Qmin (Qmin (mid n) (mid c)) (mid e)) in *.
  set (r6 := Qmax (mid n) (mid c)) in *.
  clearbody r4 r6. minmax; lra.
Qed.

Lemma cut_excelente_eq n c e :
  cut_excelente n c e ==
  Qmin (hi n) (Qmax (hi c) (Qmin (mid c) (mid e))).
Proof.
  unfold cut_excelente. rewrite !fmax_Qmax, !fmin_Qmin.
  minmax; lra.
Qed.

Lemma quality_fold n c e :
  defuzz calidad_estetica
    (cuts (cut_pobre (clip nitidez n) (clip contraste c) (clip exposicion e))
          (cut_excelente (clip nitidez n) (clip contraste c)
                         (clip exposicion e))
          (cut_aceptable (clip nitidez n) (clip contraste c)
                         (clip exposicion e))) = quality n c e.
Proof. unfold quality. cbv zeta. reflexivity. Qed.

(** Two calls whose cuts are equal numbers answer equal numbers. *)
Lemma quality_same n c e n2 c2 e2 :
  cut_pobre (clip nitidez n) (clip contraste c) (clip exposicion e) ==
    cut_pobre (clip nitidez n2) (clip contraste c2) (clip exposicion e2) ->
  cut_excelente (clip nitidez n) (clip contraste c) (clip exposicion e) ==
    cut_excelente (clip nitidez n2) (clip contraste c2)
                  (clip exposicion e2) ->
  cut_aceptable (clip nitidez n) (clip contraste c) (clip exposicion e) ==
    cut_aceptable (clip nitidez n2) (clip contraste c2)
                  (clip exposicion e2) ->
  exists v w,
    quality n c e = inr v /\ quality n2 c2 e2 = inr w /\ v == w.
Proof.
  intros Hp Hx Ha.
  destruct (quality_inside n c e) as (v & Ev & _).
  destruct (quality_inside n2 c2 e2) as (w & Ew & _).
  exists v, w. split; [assumption|]. split; [assumption|].
  pose proof (defuzz_cuts_same _ _ _ _ _ _ Hp Hx Ha) as H.
  rewrite !quality_fold, Ev, Ew in H. exact H.
Qed.

Lemma degrees_unit v :
  0 <= v <= 10 ->
  0 <= lo v <= 1 /\ 0 <= mid v <= 1 /\ 0 <= hi v <= 1 /\
  lo v + mid v + hi v == 1 /\ (lo v == 0 \/ hi v == 0).
Proof.
  intro B. destruct (degrees v B) as [(? & ? & ? & ?)|(? & ? & ? & ?)].
  - repeat apply conj; try lra; right; assumption.
  - repeat apply conj; try lra; left; assumption.
Qed.



Lemma cuts_without_exposure n c e1 e2 :
  0 <= n <= 10 -> 0 <= c <= 10 -> 0 <= e1 <= 10 -> 0 <= e2 <= 10 ->
  n == 0 \/ c == 0 ->
  cut_pobre n c e1 == 1 /\ cut_excelente n c e1 == 0 /\
  cut_pobre n c e1 == cut_pobre n c e2 /\
  cut_excelente n c e1 == cut_excelente n c e2 /\
  cut_aceptable n c e1 == cut_aceptable n c e2.
Proof.
  intros Bn Bc B1 B2 Z.
  destruct (degrees_unit n Bn) as (Ln & Mn & Hn & _).
  destruct (degrees_unit c Bc) as (Lc & Mc & Hc & _).
  destruct (degrees_unit e1 B1) as (L1 & M1 & H1 & _).
  destruct (degrees_unit e2 B2) as (L3 & M3 & H3 & _).
  assert (D : (lo n == 1 /\ hi n == 0) \/
              (lo c == 1 /\ mid c == 0 /\ hi c == 0)).
  { destruct Z as [Z|Z]; [left|right].
    - destruct (degrees n Bn) as [(? & ? & ? & ?)|(? & ? & ? & ?)];
        split; lra.
    - destruct (degrees c Bc) as [(? & ? & ? & ?)|(? & ? & ? & ?)];
        repeat apply conj; lra. }
  rewrite !cut_pobre_eq, !cut_excelente_eq, !cut_aceptable_eq.
  split; [|split; [|split; [|split; [|reflexivity]]]];
    destruct D as [(D1 & D2)|(D1 & D2 & D3)]; minmax; lra.
Qed.

Lemma clip_below_zero n c :
  (n <= 0 -> clip nitidez n == 0) /\ (c <= 0 -> clip contraste c == 0).
Proof.
  split.
  - apply (clip_entrada "nitidez" _ n).
  - apply (clip_entrada "contraste" _ c).
Qed.

Lemma quality_without_exposure n c e e2 :
  n <= 0 \/ c <= 0 ->
  exists v w,
    quality n c e = inr v /\ quality n c e2 = inr w /\ v == w.
Proof.
  intro Z.
  destruct (clip_inputs n c e) as ((Bn & _) & (Bc & _) & (B1 & _)).
  destruct (clip_inputs n c e2) as (_ & _ & (B2 & _)).
  destruct (clip_below_zero n c) as [Zn Zc].
  destruct (cuts_without_exposure _ _ _ _ Bn Bc B1 B2)
    as (_ & _ & Hp & Hx & Ha); [tauto|].
  apply quality_same; assumption.
Qed.



(** ** The run cache *)

Lemma output_get_state key s : snd (output_get key s) = s.
Proof. unfold output_get. destruct (dict_get _ _); reflexivity. Qed.

Lemma cache_inv_step s n c e :
  sim_inv s -> cache_inv s -> cache_inv (snd (evaluate_quality n c e s)).
Proof.
  intros I [L B]. rewrite (evaluate_quality_unfold _ _ _ _ I).
  destruct (calculated_get _ _) as [o|].
  - rewrite output_get_state. split; assumption.
  - rewrite infer_inputs_of.
    destruct (quality_inside n c e) as (v & -> & _).
    rewrite output_get_state. unfold record_run, cache_inv. cbn [run].
    unfold flush_after_run in *.
    destruct (Nat.eqb_spec (S (run s) mod 1000) 0) as [Z|Z];
      unfold reset_simulation; split;
      cbn [calculated run ctrl input output List.length]; try lia.
    assert (S (run s) <> 1000)%nat by (intro K; rewrite K in Z; now apply Z).
    lia.
Qed.

Lemma reachable_cache_inv s : reachable s -> cache_inv s.
Proof.
  induction 1 as [s H | s n c e R IH].
  - rewrite initialize_ok in H. injection H as <-.
    split; [reflexivity|]. unfold flush_after_run. cbn. lia.
  - apply cache_inv_step; [now apply reachable_inv|assumption].
Qed.

Lemma float_same_refl x : float_same x x = true.
Proof.
  unfold float_same. now rewrite Z.eqb_refl, Pos.eqb_refl.
Qed.

Lemma inputs_same_refl a : inputs_same a a = true.
Proof.
  induction a as [|[k x] a IH]; [reflexivity|].
  simpl. now rewrite String.eqb_refl, float_same_refl, IH.
Qed.

Lemma dict_set_twice {A} (d : list (string * A)) k v :
  dict_set (dict_set d k v) k v = dict_set d k v.
Proof.
  induction d as [|[k' v'] d IH]; simpl.
  - now rewrite String.eqb_refl.
  - destruct (String.eqb k k') eqn:E; simpl.
    + now rewrite String.eqb_refl.
    + now rewrite E, IH.
Qed.

Lemma evaluate_quality_step s n c e v :
  sim_inv s -> quality n c e = inr v ->
  evaluate_quality n c e s = (inr v, after_call s n c e v).
Proof.
  intros I Q. rewrite (evaluate_quality_unfold _ _ _ _ I).
  pose proof (infer_inputs_of n c e) as HI. rewrite Q in HI.
  unfold after_call.
  destruct (calculated_get (calculated s) (inputs_of n c e)) as [o|] eqn:G.
  - assert (O : o = [("calidad_estetica"%string, v)]).
    { apply calculated_get_In in G. apply (inv_cache _ I) in G.
      rewrite HI in G. now injection G as <-. }
    subst o. unfold output_get. cbn [output dict_update].
    rewrite dict_get_set. reflexivity.
  - rewrite HI. unfold output_get, record_run. cbn [run].
    destruct (Nat.eqb _ 0); unfold reset_simulation;
      cbn [output dict_update ctrl input calculated run];
      rewrite dict_get_set; reflexivity.
Qed.

(** A call repeated on the simulator it left is answered from the cache
    and changes nothing, unless the first call was the one that flushed the
    cache. *)
Lemma evaluate_quality_again s n c e :
  sim_inv s ->
  let s1 := snd (evaluate_quality n c e s) in
  run s1 <> 0%nat ->
  evaluate_quality n c e s1 = (fst (evaluate_quality n c e s), s1).
Proof.
  intros I s1 NZ.
  assert (I1 : sim_inv s1) by (apply evaluate_quality_inv, I).
  destruct (quality_inside n c e) as (v & Q & _).
  rewrite (evaluate_quality_step _ _ _ _ v I1 Q).
  subst s1. revert NZ. rewrite (evaluate_quality_step _ _ _ _ v I Q).
  cbn [fst snd]. intro NZ. f_equal.
  unfold after_call at 1.
  unfold after_call in NZ |- *.
  destruct (calculated_get (calculated s) (inputs_of n c e)) as [o|] eqn:G.
  - cbn [calculated output run]. rewrite G, dict_set_twice. reflexivity.
  - revert NZ. unfold record_run. cbn [run].
    destruct (Nat.eqb _ 0); unfold reset_simulation;
      cbn [output dict_update ctrl input calculated run calculated_get];
      intro NZ; [congruence|].
    rewrite inputs_same_refl, dict_set_twice. reflexivity.
Qed.

Module MetricsFacts.
Import Reals Lra Metrics.
Local Open Scope R_scope.
Local Open Scope string_scope.

Lemma np_clip_range x : 0 <= clip x 0 10 <= 10.
Proof.
  unfold clip. split.
  - apply Rmin_glb; [apply Rmax_r|lra].
  - apply Rmin_r.
Qed.

Lemma np_clip_inside x : 0 <= x <= 10 -> clip x 0 10 = x.
Proof.
  intros [L U]. unfold clip. rewrite Rmax_left by assumption.
  now apply Rmin_left.
Qed.

Lemma np_clip_high x : 10 <= x -> clip x 0 10 = 10.
Proof.
  intro H. unfold clip. rewrite Rmax_left by lra. apply Rmin_right. lra.
Qed.

Lemma np_clip_monotone x y : x <= y -> clip x 0 10 <= clip y 0 10.
Proof.
  intro H. unfold clip. apply Rle_min_compat_r.
  now apply Rle_max_compat_r.
Qed.

Lemma log1p_300_pos : 0 < log1p 300.
Proof.
  unfold log1p. rewrite <- ln_1. apply ln_increasing; lra.
Qed.

Lemma log1p_monotone x y : 0 <= x -> x <= y -> log1p x <= log1p y.
Proof.
  intros Hx [H| ->]; [|apply Rle_refl].
  left. unfold log1p. apply ln_increasing; lra.
Qed.

Lemma log1p_0 : log1p 0 = 0.
Proof. unfold log1p. rewrite Rplus_0_r. apply ln_1. Qed.

(** The sharpness before clipping. *)
Lemma raw_nitidez x :
  0 <= x ->
  0 <= log1p x * (10 / log1p 300) /\
  (300 <= x -> 10 <= log1p x * (10 / log1p 300)) /\
  (x <= 300 -> log1p x * (10 / log1p 300) <= 10).
Proof.
  intro Hx. pose proof log1p_300_pos as P.
  assert (L0 : 0 <= log1p x).
  { rewrite <- log1p_0. apply log1p_monotone; lra. }
  assert (Q : 0 < 10 / log1p 300).
  { apply Rdiv_lt_0_compat; lra. }
  assert (E : log1p 300 * (10 / log1p 300) = 10) by (field; lra).
  split; [|split].
  - apply Rmult_le_pos; lra.
  - intro H. rewrite <- E at 1.
    apply Rmult_le_compat_r; [lra|]. apply log1p_monotone; lra.
  - intro H. rewrite <- E at 2.
    apply Rmult_le_compat_r; [lra|]. apply log1p_monotone; lra.
Qed.

End MetricsFacts.

(** * Further properties *)

(** ** The engine *)







(** X4. When the sharpness or the contrast is 0 (or below, which is
    clipped to 0), the exposure has no influence on the quality. *)
Theorem exposure_ignored s1 s2 n c e e' :
  reachable s1 -> reachable s2 -> n <= 0 \/ c <= 0 ->
  exists v w,
    fst (evaluate_quality n c e s1) = inr v /\
    fst (evaluate_quality n c e' s2) = inr w /\
    v == w.
Proof.
  intros R1 R2 Z.
  rewrite (evaluate_quality_reachable _ _ _ _ R1).
  rewrite (evaluate_quality_reachable _ _ _ _ R2).
  now apply quality_without_exposure.
Qed.

Lemma exposure_ignored_witness :
  reachable calidad_simulador /\ (0 <= 0 \/ 6 <= 0) /\
  exists v w,
    fst (evaluate_quality 0 6 1 calidad_simulador) = inr v /\
    fst (evaluate_quality 0 6 9 calidad_simulador) = inr w /\
    v == w.
Proof.
  assert (R : reachable calidad_simulador)
    by (apply reach_init, initialize_ok).
  assert (Z : 0 <= 0 \/ 6 <= 0) by (left; discriminate).
  split; [exact R|]. split; [exact Z|].
  exact (exposure_ignored calidad_simulador calidad_simulador 0 6 1 9 R R Z).
Defined.



(** X6. Rules 4, 7 and 8 never decide anything: on every input rule 4
    fires no more than rule 6, and rules 7 and 8 no more than rule 3, so
    the cut of pobre is the larger of the activations of rules 1 and 3,
    that of aceptable is the activation of rule 6, and that of excelente
    the larger of those of rules 2 and 5. *)
Theorem dominated_rules n c e :
  exists a1 a2 a3 a4 a5 a6 a7 a8,
    activations n c e =
      inr [Some a1; Some a2; Some a3; Some a4;
           Some a5; Some a6; Some a7; Some a8] /\
    a4 <= a6 /\ a7 <= a3 /\ a8 <= a3 /\
    cut_pobre (clip nitidez n) (clip contraste c) (clip exposicion e)
      == Qmax a1 a3 /\
    cut_aceptable (clip nitidez n) (clip contraste c) (clip exposicion e)
      == a6 /\
    cut_excelente (clip nitidez n) (clip contraste c) (clip exposicion e)
      == Qmax a2 a5.
Proof.
  rewrite activations_eq, activations_calidad.
  do 8 eexists. split; [reflexivity|].
  rewrite cut_pobre_eq, cut_aceptable_eq, cut_excelente_eq.
  set (ln := lo (clip nitidez n)). set (mn := mid (clip nitidez n)).
  set (hn := hi (clip nitidez n)). set (lc := lo (clip contraste c)).
  set (mc := mid (clip contraste c)). set (hc := hi (clip contraste c)).
  set (le := lo (clip exposicion e)). set (me := mid (clip exposicion e)).
  set (he := hi (clip exposicion e)).
  clearbody ln mn hn lc mc hc le me he.
  rewrite !fmax_Qmax, !fmin_Qmin.
  repeat apply conj; minmax; lra.
Qed.


(** X8. The run cache stays bounded: in every state the simulator can
    reach, the cache holds exactly the runs counted since the last flush,
    fewer than [flush_after_run] = 1000 of them. *)
Theorem cache_bounded s :
  reachable s ->
  List.length (calculated s) = run s /\ (run s < 1000)%nat.
Proof.
  intro R. exact (reachable_cache_inv s R).
Qed.

Lemma cache_bounded_witness :
  reachable (snd (evaluate_quality 7 4 2 calidad_simulador)) /\
  List.length (calculated (snd (evaluate_quality 7 4 2 calidad_simulador)))
    = run (snd (evaluate_quality 7 4 2 calidad_simulador)) /\
  (run (snd (evaluate_quality 7 4 2 calidad_simulador)) < 1000)%nat.
Proof.
  assert (R : reachable (snd (evaluate_quality 7 4 2 calidad_simulador)))
    by (apply reach_eval, reach_init, initialize_ok).
  split; [exact R|].
  exact (cache_bounded _ R).
Defined.

(** X9. A call repeated with the same inputs is answered from the cache:
    it returns what the first call returned and leaves the simulator
    exactly as the first call left it, unless the first call was the one
    that flushed the cache (the run count is back at 0). *)
Theorem repeated_call s n c e :
  reachable s ->
  run (snd (evaluate_quality n c e s)) <> 0%nat ->
  evaluate_quality n c e (snd (evaluate_quality n c e s)) =
  (fst (evaluate_quality n c e s), snd (evaluate_quality n c e s)).
Proof.
  intros R NZ.
  exact (evaluate_quality_again s n c e (reachable_inv s R) NZ).
Qed.

Lemma repeated_call_witness :
  reachable calidad_simulador /\
  run (snd (evaluate_quality 7 4 2 calidad_simulador)) <> 0%nat /\
  evaluate_quality 7 4 2 (snd (evaluate_quality 7 4 2 calidad_simulador)) =
  (fst (evaluate_quality 7 4 2 calidad_simulador),
   snd (evaluate_quality 7 4 2 calidad_simulador)).
Proof.
  assert (R : reachable calidad_simulador)
    by (apply reach_init, initialize_ok).
  assert (NZ : run (snd (evaluate_quality 7 4 2 calidad_simulador))
               <> 0%nat) by (vm_compute; discriminate).
  split; [exact R|]. split; [exact NZ|].
  exact (repeated_call calidad_simulador 7 4 2 R NZ).
Defined.

(** ** The endpoint over its requests *)

Lemma handler_try env sim files file :
  has_upload files file ->
  App.upload_and_evaluate_fuzzy_api env (Some sim) files =
  let filepath := upload_path env file in
  let '(result, sim') := App.try_block env sim file filepath in
  let pending :=
    match result with
    | inr body => App.Response body 200
    | inl e => internal_error e
    end in
  if App.path_exists env filepath then
    match App.os_remove env filepath with
    | Some e => (App.Raised e, Some sim')
    | None => (pending, Some sim')
    end
  else (pending, Some sim').
Proof.
  intros [G N]. unfold App.upload_and_evaluate_fuzzy_api. rewrite G.
  destruct (String.eqb_spec (App.filename file) ""); [contradiction|].
  reflexivity.
Qed.

Lemma handler_cleanup_ok env sim files file :
  has_upload files file -> cleanup_ok env (upload_path env file) ->
  App.upload_and_evaluate_fuzzy_api env (Some sim) files =
  let '(result, sim') :=
    App.try_block env sim file (upload_path env file) in
  (match result with
   | inr body => App.Response body 200
   | inl e => internal_error e
   end, Some sim').
Proof.
  intros U C. rewrite (handler_try env sim files file U). cbv zeta.
  destruct (App.try_block _ _ _ _) as [result sim'].
  destruct C as [C|C]; rewrite C; [reflexivity|].
  destruct (App.path_exists _ _); reflexivity.
Qed.

Lemma try_block_state env sim file path :
  snd (App.try_block env sim file path) = sim \/
  exists n c e,
    snd (App.try_block env sim file path) = snd (evaluate_quality n c e sim).
Proof.
  unfold App.try_block.
  destruct (App.save file path); [now left|].
  destruct (App.calculate_metrics env path) as [err|[[n c] e]]; [now left|].
  right. exists n, c, e.
  destruct (evaluate_quality n c e sim) as [[err|v] sim']; reflexivity.
Qed.

Lemma handler_state env sim files :
  snd (App.upload_and_evaluate_fuzzy_api env (Some sim) files) = Some sim \/
  exists n c e,
    snd (App.upload_and_evaluate_fuzzy_api env (Some sim) files) =
    Some (snd (evaluate_quality n c e sim)).
Proof.
  unfold App.upload_and_evaluate_fuzzy_api.
  destruct (dict_get files "imageFile") as [file|]; [|now left].
  destruct (String.eqb (App.filename file) ""); [now left|]. cbn [negb].
  pose proof (try_block_state env sim file
                (App.path_join App.UPLOAD_FOLDER
                   (App.secure_filename env (App.filename file)))) as T.
  destruct (App.try_block _ _ _ _) as [result sim']. cbn [snd] in T.
  destruct (App.path_exists env _); [destruct (App.os_remove env _)|];
    cbn [snd]; (destruct T as [->|(n & c & e & ->)];
                [now left|right; now exists n, c, e]).
Qed.

Lemma served_engine st :
  served st -> exists sim, st = Some sim /\ reachable sim.
Proof.
  induction 1 as [|env st files _ (sim & -> & R)].
  - exists calidad_simulador. split; [reflexivity|].
    apply reach_init, initialize_ok.
  - destruct (handler_state env sim files) as [->|(n & c & e & ->)].
    + exists sim. auto.
    + eexists. split; [reflexivity|]. now apply reach_eval.
Qed.

Lemma round2_spec x :
  exists k : Z,
    App.round2 x == inject_Z k / 100 /\
    - (1#200) <= App.round2 x - x <= 1#200.
Proof.
  unfold App.round2. cbv zeta.
  pose proof (Qfloor_le (x * 100)) as F1.
  pose proof (Qlt_floor (x * 100)) as F2.
  rewrite inject_Z_plus in F2. change (inject_Z 1) with 1 in F2.
  set (f := Qfloor (x * 100)) in *.
  assert (P : inject_Z (f + 1) == inject_Z f + 1)
    by (rewrite inject_Z_plus; reflexivity).
  assert (D : forall k : Z, - (1#2) <= inject_Z k - x * 100 <= 1#2 ->
              - (1#200) <= inject_Z k / 100 - x <= 1#200).
  { intros k [L U].
    assert (E : inject_Z k / 100 - x == (inject_Z k - x * 100) * (1#100))
      by field.
    rewrite E. split; lra. }
  qcases.
  - exists f. split; [reflexivity|]. apply D. split; lra.
  - exists (f + 1)%Z. split; [reflexivity|]. apply D. rewrite P. split; lra.
  - destruct (Z.even f).
    + exists f. split; [reflexivity|]. apply D. split; lra.
    + exists (f + 1)%Z. split; [reflexivity|]. apply D. rewrite P.
      split; lra.
Qed.

(** ** The endpoint *)

(** X10. The server never lacks its engine: start-up builds it, every
    request hands it on in a state the engine can reach, and so no request
    is ever answered with 503. *)
Theorem engine_always_available st env files :
  served st ->
  (exists sim, st = Some sim /\ reachable sim) /\
  served (snd (App.upload_and_evaluate_fuzzy_api env st files)) /\
  forall body status,
    fst (App.upload_and_evaluate_fuzzy_api env st files) =
      App.Response body status -> status <> 503%nat.
Proof.
  intro S. destruct (served_engine st S) as (sim & -> & R).
  split; [now exists sim|]. split; [now apply served_request|].
  unfold App.upload_and_evaluate_fuzzy_api.
  destruct (dict_get files "imageFile") as [file|];
    [|intros body status H; injection H as _ <-; discriminate].
  destruct (String.eqb (App.filename file) "");
    [intros body status H; injection H as _ <-; discriminate|].
  cbn [negb].
  destruct (App.try_block _ _ _ _) as [[e|b] sim'];
    (destruct (App.path_exists env _); [destruct (App.os_remove env _)|]);
    intros body status H; cbn [fst] in H;
    try discriminate; injection H as _ <-; discriminate.
Qed.

Lemma engine_always_available_witness :
  served App.CALIDAD_SIMULADOR /\
  (exists sim, App.CALIDAD_SIMULADOR = Some sim /\ reachable sim) /\
  served (snd (App.upload_and_evaluate_fuzzy_api photo_env
                 App.CALIDAD_SIMULADOR [("imageFile"%string, photo_file)])) /\
  forall body status,
    fst (App.upload_and_evaluate_fuzzy_api photo_env App.CALIDAD_SIMULADOR
           [("imageFile"%string, photo_file)]) =
      App.Response body status -> status <> 503%nat.
Proof.
  split; [exact served_start|].
  exact (engine_always_available App.CALIDAD_SIMULADOR photo_env
           [("imageFile"%string, photo_file)] served_start).
Defined.

(** X11. A request that goes through: with the engine in a reachable
    state, an upload with a name, a save and a measurement that succeed and
    a clean-up that does not raise, the answer is 200 with the quality the
    engine computes for the measured values, strictly between 0 and 100,
    the three measurements rounded to hundredths, and the status
    "success"; the engine is left in a reachable state. *)
Theorem upload_success env sim files file n c e :
  reachable sim -> has_upload files file ->
  App.save file (upload_path env file) = None ->
  App.calculate_metrics env (upload_path env file) = inr (n, c, e) ->
  cleanup_ok env (upload_path env file) ->
  exists v,
    fst (evaluate_quality n c e sim) = inr v /\ 0 < v < 100 /\
    App.upload_and_evaluate_fuzzy_api env (Some sim) files =
      (App.Response [("calidad"%string, App.JNum v);
                     ("nitidez_calc"%string, App.JNum (App.round2 n));
                     ("contraste_calc"%string, App.JNum (App.round2 c));
                     ("exposicion_calc"%string, App.JNum (App.round2 e));
                     ("status"%string, App.JStr "success")] 200,
       Some (snd (evaluate_quality n c e sim))) /\
    reachable (snd (evaluate_quality n c e sim)).
Proof.
  intros R U Sv M C.
  pose proof (evaluate_quality_reachable sim n c e R) as Q.
  destruct (quality_inside n c e) as (v & E & B). rewrite E in Q.
  exists v. split; [assumption|]. split; [assumption|].
  split; [|now apply reach_eval].
  rewrite (handler_cleanup_ok env sim files file U C).
  unfold App.try_block. rewrite Sv, M.
  destruct (evaluate_quality n c e sim) as [r sim']. cbn [fst snd] in *.
  rewrite Q. reflexivity.
Qed.

Lemma upload_success_witness :
  reachable calidad_simulador /\
  has_upload [("imageFile"%string, photo_file)] photo_file /\
  App.save photo_file (upload_path photo_env photo_file) = None /\
  App.calculate_metrics photo_env (upload_path photo_env photo_file)
    = inr (7, 6, 5) /\
  cleanup_ok photo_env (upload_path photo_env photo_file) /\
  exists v,
    fst (evaluate_quality 7 6 5 calidad_simulador) = inr v /\ 0 < v < 100 /\
    App.upload_and_evaluate_fuzzy_api photo_env (Some calidad_simulador)
        [("imageFile"%string, photo_file)] =
      (App.Response [("calidad"%string, App.JNum v);
                     ("nitidez_calc"%string, App.JNum (App.round2 7));
                     ("contraste_calc"%string, App.JNum (App.round2 6));
                     ("exposicion_calc"%string, App.JNum (App.round2 5));
                     ("status"%string, App.JStr "success")] 200,
       Some (snd (evaluate_quality 7 6 5 calidad_simulador))) /\
    reachable (snd (evaluate_quality 7 6 5 calidad_simulador)).
Proof.
  assert (R : reachable calidad_simulador)
    by (apply reach_init, initialize_ok).
  assert (U : has_upload [("imageFile"%string, photo_file)] photo_file)
    by (split; [reflexivity|discriminate]).
  assert (C : cleanup_ok photo_env (upload_path photo_env photo_file))
    by (right; reflexivity).
  split; [exact R|]. split; [exact U|]. split; [reflexivity|].
  split; [reflexivity|]. split; [exact C|].
  exact (upload_success photo_env calidad_simulador
           [("imageFile"%string, photo_file)] photo_file 7 6 5 R U
           eq_refl eq_refl C).
Defined.

(** X12. A failure inside the [try] block that the clean-up survives:
    when saving the upload or measuring it raises [err], the answer is 500
    with the default quality 50, the text "Error interno: " followed by
    [err] and the status "error", and the engine is left as it was. *)
Theorem upload_failure_handled env sim files file err :
  has_upload files file ->
  App.save file (upload_path env file) = Some err \/
  (App.save file (upload_path env file) = None /\
   App.calculate_metrics env (upload_path env file) = inl err) ->
  cleanup_ok env (upload_path env file) ->
  App.upload_and_evaluate_fuzzy_api env (Some sim) files =
    (App.Response [("calidad"%string, App.JNum 50);
                   ("error"%string,
                    App.JStr (String.append "Error interno: " err));
                   ("status"%string, App.JStr "error")] 500,
     Some sim).
Proof.
  intros U F C.
  rewrite (handler_cleanup_ok env sim files file U C).
  unfold App.try_block.
  destruct F as [-> | [-> ->]]; reflexivity.
Qed.

Lemma upload_failure_handled_witness :
  has_upload [("imageFile"%string, photo_file)] photo_file /\
  (App.save photo_file (upload_path broken_env photo_file) = None /\
   App.calculate_metrics broken_env (upload_path broken_env photo_file)
     = inl unreadable) /\
  cleanup_ok broken_env (upload_path broken_env photo_file) /\
  App.upload_and_evaluate_fuzzy_api broken_env (Some calidad_simulador)
      [("imageFile"%string, photo_file)] =
    (App.Response
       [("calidad"%string, App.JNum 50);
        ("error"%string,
         App.JStr (String.append "Error interno: " unreadable));
        ("status"%string, App.JStr "error")] 500,
     Some calidad_simulador).
Proof.
  assert (U : has_upload [("imageFile"%string, photo_file)] photo_file)
    by (split; [reflexivity|discriminate]).
  assert (F : App.save photo_file (upload_path broken_env photo_file) = None
              /\ App.calculate_metrics broken_env
                   (upload_path broken_env photo_file)
                 = inl unreadable)
    by (split; reflexivity).
  assert (C : cleanup_ok broken_env (upload_path broken_env photo_file))
    by (right; reflexivity).
  split; [exact U|]. split; [exact F|]. split; [exact C|].
  exact (upload_failure_handled broken_env calidad_simulador
           [("imageFile"%string, photo_file)] photo_file _ U
           (or_intror F) C).
Defined.

(** X13. The guards answer before anything is touched: without an engine,
    without a part named "imageFile", or with an upload of empty name,
    the answer is a JSON error with the default quality 50 and the status
    503, 400 and 400; it is the same in every environment (nothing is
    saved, measured or removed) and the engine is handed on unchanged. *)
Theorem guards_answer_first env env' st files :
  st = None \/ dict_get files "imageFile" = None \/
  (exists file, dict_get files "imageFile" = Some file /\
                App.filename file = EmptyString) ->
  App.upload_and_evaluate_fuzzy_api env st files =
    App.upload_and_evaluate_fuzzy_api env' st files /\
  snd (App.upload_and_evaluate_fuzzy_api env st files) = st /\
  exists msg status,
    fst (App.upload_and_evaluate_fuzzy_api env st files) =
      App.Response [("error"%string, App.JStr msg);
                    ("calidad"%string, App.JNum 50)]
                   status /\
    (status = 503%nat <-> st = None) /\
    (status = 400%nat <-> st <> None).
Proof.
  intros G. unfold App.upload_and_evaluate_fuzzy_api.
  destruct st as [sim|].
  - destruct G as [G|[G|(file & G & N)]]; [discriminate| |].
    + rewrite G. split; [reflexivity|]. split; [reflexivity|].
      do 2 eexists. split; [reflexivity|].
      split; split; intro H; try discriminate; congruence.
    + rewrite G, N. cbn [String.eqb].
      split; [reflexivity|]. split; [reflexivity|].
      do 2 eexists. split; [reflexivity|].
      split; split; intro H; try discriminate; congruence.
  - split; [reflexivity|]. split; [reflexivity|].
    do 2 eexists. split; [reflexivity|].
    split; split; intro H; try reflexivity; congruence.
Qed.

Lemma guards_answer_first_witness :
  (Some calidad_simulador = None \/
   dict_get (@nil (string * App.FileStorage)) "imageFile" = None \/
   (exists file, dict_get (@nil (string * App.FileStorage)) "imageFile"
                 = Some file /\ App.filename file = EmptyString)) /\
  App.upload_and_evaluate_fuzzy_api photo_env (Some calidad_simulador) [] =
    App.upload_and_evaluate_fuzzy_api broken_env (Some calidad_simulador) []
  /\
  snd (App.upload_and_evaluate_fuzzy_api photo_env (Some calidad_simulador)
         []) = Some calidad_simulador /\
  exists msg status,
    fst (App.upload_and_evaluate_fuzzy_api photo_env
           (Some calidad_simulador) []) =
      App.Response [("error"%string, App.JStr msg);
                    ("calidad"%string, App.JNum 50)]
                   status /\
    (status = 503%nat <-> Some calidad_simulador = None) /\
    (status = 400%nat <-> Some calidad_simulador <> None).
Proof.
  assert (G : Some calidad_simulador = None \/
              dict_get (@nil (string * App.FileStorage)) "imageFile" = None
              \/ (exists file,
                    dict_get (@nil (string * App.FileStorage)) "imageFile"
                    = Some file /\ App.filename file = EmptyString))
    by (right; left; reflexivity).
  split; [exact G|].
  exact (guards_answer_first photo_env broken_env (Some calidad_simulador)
           [] G).
Defined.

(** X14. How a call of the view can end: with 200 and the status
    "success"; with 400, 500 or 503 and the default quality 50; or with
    an exception, which then comes from [os.remove] in the [finally] block
    on a path that exists.  The body never ends without a [return]. *)
Theorem view_outcomes env st files :
  match fst (App.upload_and_evaluate_fuzzy_api env st files) with
  | App.Response body status =>
      (status = 200%nat /\
       dict_get body "status" = Some (App.JStr "success")) \/
      (In status [400; 500; 503]%nat /\
       dict_get body "calidad" = Some (App.JNum 50))
  | App.Raised err =>
      exists sim file,
        st = Some sim /\ has_upload files file /\
        App.path_exists env (upload_path env file) = true /\
        App.os_remove env (upload_path env file) = Some err
  | App.ReturnedNone => False
  end.
Proof.
  unfold App.upload_and_evaluate_fuzzy_api.
  destruct st as [sim|]; [|right; split; [simpl; tauto|reflexivity]].
  destruct (dict_get files "imageFile") as [file|] eqn:G;
    [|right; split; [simpl; tauto|reflexivity]].
  destruct (String.eqb_spec (App.filename file) "") as [N|N];
    [right; split; [simpl; tauto|reflexivity]|].
  cbn [negb].
  assert (U : has_upload files file) by (split; assumption).
  fold (upload_path env file).
  assert (T : match fst (App.try_block env sim file (upload_path env file))
              with
              | inr body => dict_get body "status"
                            = Some (App.JStr "success")
              | inl _ => True
              end).
  { unfold App.try_block. destruct (App.save file _); [exact I|].
    destruct (App.calculate_metrics env _) as [?|[[n c] e]]; [exact I|].
    destruct (evaluate_quality n c e sim) as [[?|v] ?]; [exact I|].
    reflexivity. }
  destruct (App.try_block _ _ _ _) as [[e|b] sim']; cbn [fst] in T;
    (destruct (App.path_exists env _) eqn:X;
     [destruct (App.os_remove env _) eqn:Rm|]); cbn [fst].
  all: try (exists sim, file; repeat split; try apply U; assumption).
  all: try (right; split; [simpl; tauto|reflexivity]).
  all: left; split; [reflexivity|assumption].
Qed.

(** X15. The measurements a response reports are the measured values
    rounded to a whole number of hundredths, at most 0.005 away. *)
Theorem reported_metrics_close x :
  exists k : Z,
    App.round2 x == inject_Z k / 100 /\ Qabs (App.round2 x - x) <= 1 # 200.
Proof.
  destruct (round2_spec x) as (k & E & B).
  exists k. split; [assumption|]. now apply Qabs_Qle_condition.
Qed.

(** ** The measurements *)

Import Stdlib.Reals.Rdefinitions.

(** X16. How [calculate_metrics] ends, for measurements that are what
    they claim to be: it raises [FileNotFoundError], naming the path, exactly
    when the grey reading of the file failed; it fails in [cvtColor] when
    only the colour reading failed; otherwise it returns three values that
    all lie in [0,10], the universe of the engine's inputs. *)
Theorem metrics_outcome {Image} (cv : Metrics.Cv Image) path :
  Metrics.measures cv ->
  match Metrics.calculate_metrics cv path with
  | inl (Metrics.FileNotFoundError msg) =>
      Metrics.imread_gray cv path = None /\
      msg = String.append "No se pudo cargar la imagen en: " path
  | inl Metrics.CvError =>
      Metrics.imread_gray cv path <> None /\
      Metrics.imread_bgr cv path = None
  | inr (n, c, e) =>
      Metrics.imread_gray cv path <> None /\
      Metrics.imread_bgr cv path <> None /\
      (0 <= n <= 10)%R /\ (0 <= c <= 10)%R /\ (0 <= e <= 10)%R
  end.
Proof.
  intro M. unfold Metrics.calculate_metrics. cbv zeta.
  destruct (Metrics.imread_gray cv path) as [g|]; [|split; reflexivity].
  destruct (Metrics.imread_bgr cv path) as [b|];
    [|split; [discriminate|reflexivity]].
  split; [discriminate|]. split; [discriminate|].
  split; [apply MetricsFacts.np_clip_range|].
  split; [apply MetricsFacts.np_clip_range|].
  destruct (M b) as (_ & _ & L & U). split; lra.
Qed.

Lemma metrics_outcome_witness :
  Metrics.measures Metrics.sample_cv /\
  match Metrics.calculate_metrics Metrics.sample_cv "uploads/foto.jpg" with
  | inl (Metrics.FileNotFoundError msg) =>
      Metrics.imread_gray Metrics.sample_cv "uploads/foto.jpg" = None /\
      msg = String.append "No se pudo cargar la imagen en: "
                          "uploads/foto.jpg"
  | inl Metrics.CvError =>
      Metrics.imread_gray Metrics.sample_cv "uploads/foto.jpg" <> None /\
      Metrics.imread_bgr Metrics.sample_cv "uploads/foto.jpg" = None
  | inr (n, c, e) =>
      Metrics.imread_gray Metrics.sample_cv "uploads/foto.jpg" <> None /\
      Metrics.imread_bgr Metrics.sample_cv "uploads/foto.jpg" <> None /\
      (0 <= n <= 10)%R /\ (0 <= c <= 10)%R /\ (0 <= e <= 10)%R
  end.
Proof.
  assert (M : Metrics.measures Metrics.sample_cv).
  { intros []. cbn. repeat split; lra. }
  split; [exact M|].
  exact (metrics_outcome Metrics.sample_cv "uploads/foto.jpg" M).
Defined.

(** X17. The scale of the sharpness: it is 0 for a Laplacian of variance
    0, it does not decrease when the variance grows, and it is 10 from the
    variance 300 on. *)
Theorem sharpness_scale {Image} (cv : Metrics.Cv Image) p1 p2 g1 g2
  n1 c1 e1 n2 c2 e2 :
  Metrics.measures cv ->
  Metrics.imread_gray cv p1 = Some g1 ->
  Metrics.imread_gray cv p2 = Some g2 ->
  Metrics.calculate_metrics cv p1 = inr (n1, c1, e1) ->
  Metrics.calculate_metrics cv p2 = inr (n2, c2, e2) ->
  (Metrics.laplacian_var cv g1 = 0 -> n1 = 0)%R /\
  (300 <= Metrics.laplacian_var cv g1 -> n1 = 10)%R /\
  (Metrics.laplacian_var cv g1 <= Metrics.laplacian_var cv g2 -> n1 <= n2)%R.
Proof.
  intros M G1 G2. unfold Metrics.calculate_metrics. cbv zeta.
  rewrite G1, G2.
  destruct (Metrics.imread_bgr cv p1); [|discriminate].
  destruct (Metrics.imread_bgr cv p2); [|discriminate].
  intros E1 E2. injection E1 as <- _ _. injection E2 as <- _ _.
  destruct (M g1) as (V1 & _). destruct (M g2) as (V2 & _).
  destruct (MetricsFacts.raw_nitidez _ V1) as (R0 & R1 & R2).
  split; [|split].
  - intros ->. rewrite MetricsFacts.log1p_0.
    rewrite MetricsFacts.np_clip_inside; lra.
  - intro H. apply MetricsFacts.np_clip_high. auto.
  - intro H. apply MetricsFacts.np_clip_monotone.
    pose proof MetricsFacts.log1p_300_pos as P.
    apply Stdlib.Reals.RIneq.Rmult_le_compat_r.
    + left. apply Stdlib.Reals.RIneq.Rdiv_lt_0_compat; lra.
    + now apply MetricsFacts.log1p_monotone.
Qed.

Lemma sharpness_scale_witness :
  Metrics.measures Metrics.sample_pair /\
  exists n1 c1 e1 n2 c2 e2,
    Metrics.calculate_metrics Metrics.sample_pair "uploads/borrosa.jpg"
      = inr (n1, c1, e1) /\
    Metrics.calculate_metrics Metrics.sample_pair "uploads/nitida.jpg"
      = inr (n2, c2, e2) /\
    (Metrics.laplacian_var Metrics.sample_pair false = 0 -> n1 = 0)%R /\
    (300 <= Metrics.laplacian_var Metrics.sample_pair false -> n1 = 10)%R /\
    (Metrics.laplacian_var Metrics.sample_pair false <=
       Metrics.laplacian_var Metrics.sample_pair true -> n1 <= n2)%R.
Proof.
  assert (M : Metrics.measures Metrics.sample_pair).
  { intros []; cbn; repeat split; lra. }
  split; [exact M|].
  do 6 eexists. split; [reflexivity|]. split; [reflexivity|].
  exact (sharpness_scale Metrics.sample_pair
           "uploads/borrosa.jpg" "uploads/nitida.jpg" false true
           _ _ _ _ _ _ M eq_refl eq_refl eq_refl eq_refl).
Defined.



(** ** A bound for pictures that are not sharp *)













(** ** The range of the quality *)













